(** * FHST-tools: best-times report, black-ribbon labels and their orchestrator

    A shallow embedding of [gen_black_ribbons.py], [gen_best_times.py] and
    [gen_all.py], and the properties of their parsers, report builders,
    layout engine and file discovery.

    Conventions of the embedding:
    - a CSV file is the list of its rows, a row is a list of strings;
    - a Python exception is a value of [Py.exn]; code that may raise returns
      a [Py.result]; code that also prints returns a [Py.io] (what was
      printed, and the result);
    - Python floats that hold times, lengths on the page and modification
      times are exact rationals ([Q]); [Py.float] and [Py.int] read plain
      decimal numerals;
    - a [dict] is a [gmap]; a list updated by index is a [list] with stdpp's
      lookup and insert. *)

From Stdlib Require Import QArith Qround Lqa Ascii.
From stdpp Require Import gmap strings list fin_maps pretty sorting.

Open Scope string_scope.
Open Scope list_scope.
Open Scope nat_scope.

(** ** A small model of the Python runtime *)

Module Py.

Inductive exn : Type :=
| IndexError
| ValueError
| StopIteration
| OSError
| AttributeError
| KeyError (msg : string)
| AssertionError (msg : string)
| SystemExit (code : Z).

Inductive result (A : Type) : Type :=
| Ok (a : A)
| Raise (e : exn).
Arguments Ok {A} a.
Arguments Raise {A} e.

Definition bind {A B} (m : result A) (f : A -> result B) : result B :=
  match m with
  | Ok a => f a
  | Raise e => Raise e
  end.

(** Output on the terminal, then a value or an exception. *)
Inductive io (A : Type) : Type :=
| IO (out : list string) (r : result A).
Arguments IO {A} out r.

Definition output {A} (m : io A) : list string :=
  match m with IO out _ => out end.
Definition outcome {A} (m : io A) : result A :=
  match m with IO _ r => r end.

Definition ret {A} (a : A) : io A := IO [] (Ok a).
Definition io_bind {A B} (m : io A) (f : A -> io B) : io B :=
  match m with
  | IO out (Ok a) => match f a with IO out' r => IO (out ++ out') r end
  | IO out (Raise e) => IO out (Raise e)
  end.

Definition print (s : string) : io unit := IO [s] (Ok tt).
Definition sys_exit {A} (code : Z) : io A := IO [] (Raise (SystemExit code)).
Definition lift {A} (r : result A) : io A := IO [] r.

(** How the interpreter ends a run: an uncaught exception other than
    [SystemExit] prints a traceback and gives exit status 1. *)
Definition exit_status {A} (m : io A) : Z :=
  match outcome m with
  | Ok _ => 0
  | Raise (SystemExit code) => code
  | Raise _ => 1
  end.

(** The last line of the traceback of an uncaught exception. *)
Definition traceback {A} (m : io A) : option string :=
  match outcome m with
  | Ok _ | Raise (SystemExit _) => None
  | Raise IndexError => Some "IndexError"
  | Raise ValueError => Some "ValueError"
  | Raise StopIteration => Some "StopIteration"
  | Raise OSError => Some "OSError"
  | Raise AttributeError => Some "AttributeError"
  | Raise (KeyError msg) => Some ("KeyError: " +:+ msg)
  | Raise (AssertionError msg) => Some ("AssertionError: " +:+ msg)
  end.

(** [x <- m ;; k] runs [m] and stops at an exception; [x <~ m ;; k] is the
    same for code that prints. *)
Notation "x <- m ;; k" := (bind m (fun x => k))
  (at level 100, m at next level, right associativity).
Notation "x <~ m ;; k" := (io_bind m (fun x => k))
  (at level 100, m at next level, right associativity).

(** [l[i]] for a non-negative index. *)
Definition index {A} (l : list A) (i : nat) : result A :=
  match l !! i with
  | Some x => Ok x
  | None => Raise IndexError
  end.

(** [l[i]] for any integer: a negative index counts from the end. *)
Definition getitem {A} (l : list A) (i : Z) : result A :=
  if (0 <=? i)%Z then index l (Z.to_nat i)
  else if (0 <=? Z.of_nat (length l) + i)%Z
       then index l (Z.to_nat (Z.of_nat (length l) + i))
       else Raise IndexError.

(** [assert c, msg] *)
Definition assert (c : bool) (msg : string) : result unit :=
  if c then Ok tt else Raise (AssertionError msg).

(** Truth value of a string: the empty string is false. *)
Definition truthy (s : string) : bool :=
  match s with
  | EmptyString => false
  | String _ _ => true
  end.

(** *** Numerals *)

Definition digit (c : Ascii.ascii) : option Z :=
  let n := Ascii.nat_of_ascii c in
  if (48 <=? n)%nat && (n <=? 57)%nat then Some (Z.of_nat (n - 48)) else None.

(** Value of a string of decimal digits, most significant first. *)
Fixpoint digits (acc : Z) (s : string) : option Z :=
  match s with
  | EmptyString => Some acc
  | String c s' =>
      match digit c with
      | Some d => digits (10 * acc + d) s'
      | None => None
      end
  end.

Definition unsigned (s : string) : option Z :=
  match s with
  | EmptyString => None
  | _ => digits 0 s
  end.

(** Split off a leading sign. *)
Definition signed {A} (body : string -> option A) (neg : A -> A)
    (s : string) : option A :=
  match s with
  | String "-"%char s' => neg <$> body s'
  | String "+"%char s' => body s'
  | _ => body s
  end.

(** [int(s)] on a decimal numeral with an optional sign. *)
Definition int (s : string) : result Z :=
  match signed unsigned Z.opp s with
  | Some z => Ok z
  | None => Raise ValueError
  end.

(** The part of [s] before the first ['.'], and the part after it. *)
Fixpoint split_point (s : string) : string * option string :=
  match s with
  | EmptyString => (EmptyString, None)
  | String "."%char s' => (EmptyString, Some s')
  | String c s' => let '(a, b) := split_point s' in (String c a, b)
  end.

Definition ufloat (s : string) : option Q :=
  match split_point s with
  | (ip, None) => inject_Z <$> unsigned ip
  | (ip, Some fp) =>
      match ip, fp with
      | EmptyString, EmptyString => None
      | _, _ =>
          i ← digits 0 ip;
          f ← digits 0 fp;
          let scale := (10 ^ Z.of_nat (String.length fp))%Z in
          Some (Qmake (i * scale + f) (Z.to_pos scale))
      end
  end.

(** [float(s)] on a decimal numeral [[+-]ddd[.ddd]]; the value is kept
    exact. *)
Definition float (s : string) : result Q :=
  match signed ufloat Qopp s with
  | Some q => Ok q
  | None => Raise ValueError
  end.

(** [min(l)] of a non-empty sequence: the first of the smallest items. *)
Definition min (x : Q) (l : list Q) : Q :=
  fold_left (fun m y => if Qlt_le_dec y m then y else m) l x.

(** [max(l)] of a non-empty sequence of indices. *)
Definition max (x : nat) (l : list nat) : nat :=
  fold_left (fun m y => if decide (m < y) then y else m) l x.

(** Run a fallible function over a list, left to right. *)
Fixpoint traverse {A B} (f : A -> result B) (l : list A) : result (list B) :=
  match l with
  | [] => Ok []
  | x :: l' => y <- f x ;; ys <- traverse f l' ;; Ok (y :: ys)
  end.

End Py.

Import Py.

(** ** gen_black_ribbons.py *)

Module gen_black_ribbons.

Definition LeadColumns : list string :=
  [ "AgeGroup"; "AthleteId"; "LastName"; "FirstName"; "LastName_FirstName";
    "Age"; "EventDistance"; "EventStroke" ].
Definition TailColumns : list string :=
  [ "TotalResults"; "TotalImproved"; "TotalPoints"; "AmountImprovedSec";
    "PercentImproved" ].
Definition MeetColumns : list string :=
  [ "Name"; "Result"; "ResultSec"; "Improved"; "Points"; "Date" ].

Definition _NumLeadColumns : nat := length LeadColumns.
Definition _NumTailColumns : nat := length TailColumns.
Definition _NumColumnsPerMeet : nat := length MeetColumns.

(** The dictionary a label is. *)
Record label : Type := Label {
  meet : nat;
  swimmer : string;
  age_group : string;
  distance : string;
  stroke : string;
  new_time : Q;
  time_drop : Q;
}.

(** [gen_unformatted_label(line, meet)]: [Ok None] is the Python [None]. *)
Definition gen_unformatted_label (line : list string) (meet : nat)
    : result (option label) :=
  match take 8 line with
  | [age_group; _; last_name; first_name; _; age; distance; stroke] =>
      times <- traverse
        (fun i => index line (_NumLeadColumns + 2 + i * _NumColumnsPerMeet))
        (seq 0 (meet + 1)) ;;
      meet_time <- getitem times (-1) ;;
      if negb (truthy meet_time) then Ok None else
      meet_time <- float meet_time ;;
      prior_times <- traverse float (filter (fun t => truthy t) (removelast times)) ;;
      match prior_times with
      | [] => Ok None
      | p :: ps =>
          let prior_best := min p ps in
          if Qle_bool prior_best meet_time then Ok None else
          date <- index line (_NumLeadColumns + 5 + meet * _NumColumnsPerMeet) ;;
          Ok (Some {|
            meet := meet;
            swimmer := first_name +:+ " " +:+ last_name +:+ " (" +:+ age +:+ ")";
            age_group := age_group;
            distance := distance;
            stroke := stroke;
            new_time := meet_time;
            time_drop := prior_best - meet_time;
          |})
      end
  | _ => Raise ValueError
  end.

(** [gen_unformatted_labels(data, meet)]: a label is a non-empty dictionary,
    so [if label] is false for [None] only. *)
Fixpoint gen_unformatted_labels (data : list (list string)) (meet : nat)
    : result (list label) :=
  match data with
  | [] => Ok []
  | line :: data' =>
      label <- gen_unformatted_label line meet ;;
      labels <- gen_unformatted_labels data' meet ;;
      Ok (match label with Some l => l :: labels | None => labels end)
  end.

(** The header a report card with [n_meet] meets must have. *)
Definition expected_columns (n_meet : nat) : list string :=
  LeadColumns
  ++ (i ← seq 0 n_meet; mc ← MeetColumns;
      ["Meet" +:+ pretty (i + 1) +:+ "-" +:+ mc])
  ++ TailColumns.

(** The loop [for i,(found,expected) in enumerate(zip(header,expected_columns))]
    with its assertion, from column [i] on. *)
Fixpoint check_columns (i : nat) (cols : list (string * string))
    : result unit :=
  match cols with
  | [] => Ok tt
  | (found, expected) :: cols' =>
      _ <- assert (bool_decide (found = expected))
            ("Column " +:+ pretty (i + 1) +:+ " should be " +:+ expected
             +:+ ", not " +:+ found) ;;
      check_columns (i + 1) cols'
  end.

(** The body of the [try] block of [read_data]: the number of meets of a
    well-formed header, or the assertion that failed. *)
Definition check_header (header : list string) : result nat :=
  let n_col := Z.of_nat (length header) in
  let n_overhead := Z.of_nat (_NumLeadColumns + _NumTailColumns) in
  let n_meet_col := (n_col - n_overhead)%Z in
  _ <- assert (Z.of_nat _NumColumnsPerMeet <=? n_meet_col)%Z
        ("Athlete report card file should have at least "
         +:+ pretty (Z.of_nat _NumColumnsPerMeet + n_overhead)%Z
         +:+ " columns of data") ;;
  let n_meet := (n_meet_col `div` Z.of_nat _NumColumnsPerMeet)%Z in
  let n_extra := (n_meet_col `mod` Z.of_nat _NumColumnsPerMeet)%Z in
  _ <- assert (n_extra =? 0)%Z
        ("Athlete report card file should have "
         +:+ pretty _NumColumnsPerMeet +:+ " columns per meet") ;;
  let expected_columns := expected_columns (Z.to_nat n_meet) in
  _ <- check_columns 0 (zip header expected_columns) ;;
  Ok (Z.to_nat n_meet).

Definition newline : string := String (ascii_of_nat 10) EmptyString.

(** What [str(e)] is for the exceptions of the [try] block. *)
Definition exn_message (e : exn) : string :=
  match e with
  | AssertionError msg | KeyError msg => msg
  | _ => ""
  end.

(** The meet directory: entry [i] is [None] or [(meet_name, date)]. *)
Abbreviation meet_directory := (list (option (string * string))).

(** One pass of [for i in range(n_meet)] over a row. *)
Fixpoint scan_line (line : list string) (blocks : list nat)
    (meets : meet_directory) : result meet_directory :=
  match blocks with
  | [] => Ok meets
  | i :: blocks' =>
      let start := _NumLeadColumns + i * _NumColumnsPerMeet in
      let end_ := start + _NumColumnsPerMeet in
      match take (end_ - start) (drop start line) with
      | [meet_name; result; _; _; _; date] =>
          scan_line line blocks'
            (if truthy meet_name && truthy result
                && bool_decide (meets !! i = Some None)
             then <[i := Some (meet_name, date)]> meets
             else meets)
      | _ => Raise ValueError
      end
  end.

Fixpoint scan_lines (lines : list (list string)) (n_meet : nat)
    (meets : meet_directory) : result meet_directory :=
  match lines with
  | [] => Ok meets
  | line :: lines' =>
      meets' <- scan_line line (seq 0 n_meet) meets ;;
      scan_lines lines' n_meet meets'
  end.

(** [read_data(src)], from the rows the CSV reader returned. *)
Definition read_data (src : string) (rows : list (list string))
    : io (meet_directory * list (list string)) :=
  header <~ lift (index (take 1 rows) 0) ;;
  let lines := drop 1 rows in
  match check_header header with
  | Raise e =>
      _ <~ print ("Sorry:: " +:+ src
                 +:+ " does not appear to be properly formatted:"
                 +:+ newline +:+ newline +:+ " " +:+ exn_message e) ;;
      sys_exit 1
  | Ok n_meet =>
      meets <~ lift (scan_lines lines n_meet (replicate n_meet None)) ;;
      ret (meets, lines)
  end.

(** *** Meet information *)

Definition validate_selected_meet (meets : meet_directory) (meet_number : Z)
    : io unit :=
  match (meet_info <- getitem meets meet_number ;;
         assert (bool_decide (meet_info ≠ None)) "") with
  | Ok _ => ret tt
  | Raise _ =>
      _ <~ print "" ;;
      _ <~ print ("Sorry:: there is no meet #" +:+ pretty meet_number) ;;
      _ <~ print "" ;;
      _ <~ print "  Rerun with the --list argument to see list of meets" ;;
      sys_exit 1
  end.

Definition enumerate {A} (l : list A) : list (nat * A) :=
  zip (seq 0 (length l)) l.

(** [tuple(i for i,v in enumerate(meets) if v)] *)
Definition weeks_of (meets : meet_directory) : list nat :=
  (filter (fun iv => is_Some iv.2) (enumerate meets)).*1.

Definition select_latest_meet (meets : meet_directory) (src : string)
    : io nat :=
  let weeks := weeks_of meets in
  if bool_decide (length weeks < 2) then
    _ <~ print "" ;;
    _ <~ print ("Sorry:: cannot find any meet data in " +:+ src) ;;
    sys_exit 1
  else
    match weeks with
    | w :: ws => ret (max w ws)
    | [] => lift (Raise ValueError)
    end.

(** The [--meet] argument type: an integer that is at least 1. *)
Definition _positive (value : string) : result Z :=
  match (v <- int value ;; _ <- assert (1 <=? v)%Z "" ;; Ok v) with
  | Ok v => Ok v
  | Raise _ => Raise ValueError
  end.

(** The meet [main] generates ribbons for: [meet] is the value of [--meet],
    [None] when the option is absent. *)
Definition select_meet (meets : meet_directory) (src : string)
    (meet : option Z) : io Z :=
  match meet with
  | Some m =>
      if bool_decide (m ≠ 0%Z)
      then _ <~ validate_selected_meet meets m ;; ret m
      else k <~ select_latest_meet meets src ;; ret (Z.of_nat k)
  | None => k <~ select_latest_meet meets src ;; ret (Z.of_nat k)
  end.

End gen_black_ribbons.


(** ** gen_best_times.py *)

Module gen_best_times.

Definition ExpectedColumns : list string :=
  [ "AgeGroup"; "FirstName"; "LastName"; "Age"; "Event"; "Time";
    "ConvertedTime"; "ConvertedHundredths"; "Date"; "SwimMeet" ].

(** *** MCSL events *)

Definition _AgeGroups : list string :=
  [ "Girls 8 & Under"; "Boys 8 & Under"; "Girls 9-10"; "Boys 9-10";
    "Girls 11-12"; "Boys 11-12"; "Girls 13-14"; "Boys 13-14";
    "Women 15-18"; "Men 15-18" ].

Definition _EventNames : list string :=
  [ "Freestyle"; "Backstroke"; "Breaststroke"; "Butterfly";
    "Individual Medley" ].

Definition _EventDistances : gmap string (list nat) :=
  list_to_map
    [ ("Freestyle", [25; 50; 100]);
      ("Backstroke", [25; 50; 100]);
      ("Breaststroke", [25; 50; 100]);
      ("Butterfly", [25; 50]);
      ("Individual Medley", [100]) ].

Definition _AgeDistances : gmap string (list nat) :=
  list_to_map
    [ ("Girls 8 & Under", [25; 25; 25; 25; 100]);
      ("Boys 8 & Under", [25; 25; 25; 25; 100]);
      ("Girls 9-10", [50; 25; 25; 25; 100]);
      ("Boys 9-10", [50; 25; 25; 25; 100]);
      ("Girls 11-12", [50; 50; 50; 50; 100]);
      ("Boys 11-12", [50; 50; 50; 50; 100]);
      ("Girls 13-14", [50; 50; 50; 50; 100]);
      ("Boys 13-14", [50; 50; 50; 50; 100]);
      ("Women 15-18", [100; 100; 100; 50; 100]);
      ("Men 15-18", [100; 100; 100; 50; 100]) ].

(** [f"{d} {e}"] *)
Definition event_label (d : nat) (e : string) : string :=
  pretty d +:+ " " +:+ e.

Definition _AgeEvents : gmap string (list string) :=
  list_to_map
    ((fun ag => (ag, (fun '(e, d) => event_label d e)
                       <$> zip _EventNames (_AgeDistances !!! ag)))
     <$> _AgeGroups).

Definition _AllEvents : list string :=
  e ← _EventNames; d ← _EventDistances !!! e; [event_label d e].

(** *** Output page layout *)

Definition _LeftEdge : Q := 10.
Definition _RightEdge : Q := 205.
Definition _TopEdge : Q := 30.
Definition _BottomEdge : Q := 260.
Definition _HeaderPad : Q := 5.
Definition _HeaderHeight : Q := 10.
Definition _FooterPad : Q := 5.
Definition _FooterHeight : Q := 10.
Definition _ColumnCount : nat := 3.
Definition _ColumnPad : Q := 2.
Definition _TimeWidth : Q := 12.
Definition _AgeGroupHeight : Q := 8.
Definition _EventHeight : Q := 5.
Definition _SwimmerHeight : Q := 3.5.
Definition _AgeGroupIndent : Q := _ColumnPad.
Definition _EventIndent : Q := _AgeGroupIndent + 5.
Definition _SwimmerIndent : Q := _EventIndent + 5.
Definition _AgeGroupPad : Q := 3.
Definition _EventPad : Q := 2.
Definition _CellPad : Q := 1.
Definition _ContPad : Q := 2.

Inductive font : Type :=
| _HeaderFont | _FooterFont | _AgeGroupFont | _EventFont | _ContFont
| _SwimmerFont
| ScaledFont (size : Q).

(** The point size of [_SwimmerFont]: [_SwimmerFont[2]]. *)
Definition _SwimmerFont_size : Q := 9.

(** *** Data parsing *)

(** A result: [(swimmer, time, date)]. *)
Definition entry : Type := string * Q * string.

(** [data[age_group][event]] is the list of the results. *)
Abbreviation dataset := (gmap string (gmap string (list entry))).

(** The body of the [try] block of [read_data]. *)
Definition check_header (header : list string) : result unit :=
  let n_expected_columns := length ExpectedColumns in
  _ <- assert (bool_decide (length header = n_expected_columns))
        ("Best times file should have " +:+ pretty n_expected_columns
         +:+ " columns of data") ;;
  gen_black_ribbons.check_columns 0 (zip header ExpectedColumns).

Definition initial_data : dataset :=
  list_to_map
    ((fun ag => (ag, list_to_map ((fun e => (e, [])) <$> _AgeEvents !!! ag)))
     <$> _AgeGroups).

(** The body of [for line in lines]. *)
Definition add_line (data : dataset) (line : list string) : io dataset :=
  match line with
  | [age_group; first_name; last_name; age; event; _; _; time; date; _] =>
      _ <~ lift (assert (bool_decide (age_group ∈ _AgeGroups))
                  ("Unrecognized age group in data: " +:+ age_group)) ;;
      let swimmer := first_name +:+ " " +:+ last_name +:+ " (" +:+ age +:+ ")" in
      time <~ lift (t <- int time ;; Ok (inject_Z t / 100)%Q) ;;
      match data !! age_group with
      | None => lift (Raise (KeyError ("Unrecognized age_group: " +:+ age_group)))
      | Some events =>
          events <~ match events !! event with
                   | None =>
                       _ <~ print ("Swim up is adding " +:+ event +:+ " to "
                                  +:+ age_group) ;;
                       ret (<[event := []]> events)
                   | Some _ => ret events
                   end ;;
          ret (<[age_group :=
                    <[event := (events !!! event) ++ [(swimmer, time, date)]]>
                      events]> data)
      end
  | _ => lift (Raise ValueError)
  end.

Fixpoint add_lines (data : dataset) (lines : list (list string))
    : io dataset :=
  match lines with
  | [] => ret data
  | line :: lines' => data' <~ add_line data line ;; add_lines data' lines'
  end.

(** [read_data(src)], from the rows the CSV reader returned. *)
Definition read_data (src : string) (rows : list (list string))
    : io dataset :=
  header <~ lift (index (take 1 rows) 0) ;;
  let lines := drop 1 rows in
  match check_header header with
  | Raise e =>
      _ <~ print ("Sorry:: " +:+ src
                 +:+ " does not appear to be properly formatted:"
                 +:+ gen_black_ribbons.newline +:+ gen_black_ribbons.newline
                 +:+ " " +:+ gen_black_ribbons.exn_message e) ;;
      sys_exit 1
  | Ok _ => add_lines initial_data lines
  end.

(** *** The outline of the report *)

(** [sorted(data, key=...)]: the stable sort, by insertion from the right. *)
Fixpoint insert_by {A} (key : A -> Q) (a : A) (l : list A) : list A :=
  match l with
  | [] => [a]
  | b :: l' =>
      if Qle_bool (key a) (key b) then a :: b :: l'
      else b :: insert_by key a l'
  end.

Definition sorted {A} (key : A -> Q) (l : list A) : list A :=
  foldr (insert_by key) [] l.

Definition gen_unformatted_swimmers (data : list entry) : list entry :=
  sorted (fun x => x.1.2) data.

Definition gen_unformatted_events (data : gmap string (list entry))
    : list (string * list entry) :=
  e ← _AllEvents;
  match data !! e with
  | Some swimmers => [(e, gen_unformatted_swimmers swimmers)]
  | None => []
  end.

Definition outline : Type := list (string * list (string * list entry)).

Definition gen_unformatted_report (data : dataset) : result outline :=
  traverse
    (fun ag =>
       match data !! ag with
       | Some events => Ok (ag, gen_unformatted_events events)
       | None => Raise (KeyError ag)
       end)
    _AgeGroups.

(** *** Formatted report generation *)

(** The calls the report makes on its [PDF] object, an [FPDF] document of
    format "Letter" with the [header] and [footer] of the class [PDF]. A cell
    is recorded with the page it is drawn on, its upper left corner, its
    size and its text; [cell] leaves the position at the right of the cell.

    The automatic page break of the library is on unless it is switched
    off, and [gen_best_times.py] never switches it off: [cell] first starts
    a new page when the cell would end below the break trigger, which is
    20 mm above the bottom of the page of 279.4 mm, and then draws the cell
    at the horizontal position it had. A new page runs [PDF.header], which
    moves to [_HeaderPad + _HeaderHeight] with [set_y]; the title and the
    footer cells are not part of the column flow and are left out. *)
Module FPDF.

Record drawn : Type := Drawn {
  on_page : nat;
  in_font : font;
  at_x : Q;
  at_y : Q;
  width : Q;
  height : Q;
  text : string;
}.

Record t : Type := Make {
  page : nat;
  cur_font : font;
  cur_x : Q;
  cur_y : Q;
  cells : list drawn;
  rules : list (nat * (Q * Q * Q * Q));
}.

Definition new : t := Make 0 _HeaderFont 0 0 [] [].

(** Where [cell] breaks the page: the height of the page less the bottom
    margin of the automatic page break. *)
Definition page_break_trigger : Q := 279.4 - 20.

Definition add_page (pdf : t) : t :=
  Make (S (page pdf)) (cur_font pdf) (cur_x pdf) (_HeaderPad + _HeaderHeight)
       (cells pdf) (rules pdf).
Definition line (x1 y1 x2 y2 : Q) (pdf : t) : t :=
  Make (page pdf) (cur_font pdf) (cur_x pdf) (cur_y pdf) (cells pdf)
       (rules pdf ++ [(page pdf, (x1, y1, x2, y2))]).
Definition set_font (f : font) (pdf : t) : t :=
  Make (page pdf) f (cur_x pdf) (cur_y pdf) (cells pdf) (rules pdf).
Definition set_xy (x y : Q) (pdf : t) : t :=
  Make (page pdf) (cur_font pdf) x y (cells pdf) (rules pdf).
Definition set_x (x : Q) (pdf : t) : t :=
  Make (page pdf) (cur_font pdf) x (cur_y pdf) (cells pdf) (rules pdf).
Definition cell (w h : Q) (txt : string) (pdf : t) : t :=
  let pdf :=
    if Qlt_le_dec page_break_trigger (cur_y pdf + h) then add_page pdf
    else pdf in
  Make (page pdf) (cur_font pdf) (cur_x pdf + w) (cur_y pdf)
       (cells pdf
        ++ [Drawn (page pdf) (cur_font pdf) (cur_x pdf) (cur_y pdf) w h txt])
       (rules pdf).

End FPDF.

(** Two digits, and [f"{t:.2f}"] for a time that is not negative. *)
Definition two_digits (n : Z) : string :=
  if (n <? 10)%Z then "0" +:+ pretty n else pretty n.
Definition fixed2 (t : Q) : string :=
  let h := Qfloor (t * 100 + (1 # 2))%Q in
  pretty (h `div` 100)%Z +:+ "." +:+ two_digits (h `mod` 100)%Z.
Definition fixed2_padded (t : Q) : string :=
  if Qle_bool 10 t then fixed2 t else "0" +:+ fixed2 t.

Definition format_time (t : Q) : string :=
  if Qle_bool 60 t then
    let m := Qfloor (t / 60)%Q in
    let s := (t - inject_Z m * 60)%Q in
    pretty m +:+ ":" +:+ fixed2_padded s
  else fixed2 t.

Section Layout.

Local Open Scope Q_scope.

(** [pdf.get_string_width(s)] in a given font: the font metrics are
    those of the PDF library. *)
Variable get_string_width : font -> string -> Q.

(** [(_RightEdge - _LeftEdge) // _ColumnCount] *)
Definition w_col : Q :=
  inject_Z (Qfloor ((_RightEdge - _LeftEdge) / inject_Z (Z.of_nat _ColumnCount))%Q).

Definition add_page (pdf : FPDF.t) (w_col : Q) (age_group : option string)
    : FPDF.t :=
  let pdf := FPDF.add_page pdf in
  let pdf :=
    foldl (fun pdf i =>
             let x := _LeftEdge + inject_Z (Z.of_nat i) * w_col in
             FPDF.line x _TopEdge x _BottomEdge pdf)
          pdf (seq 1 (_ColumnCount - 1)%nat) in
  match age_group with
  | Some age_group =>
      if truthy age_group then
        let pdf := FPDF.set_font _AgeGroupFont pdf in
        let pdf := FPDF.set_xy (_LeftEdge + _AgeGroupIndent) _TopEdge pdf in
        let pdf := FPDF.cell (w_col - _AgeGroupIndent) _AgeGroupHeight age_group pdf in
        let dx := get_string_width (FPDF.cur_font pdf) age_group + _ContPad in
        let pdf := FPDF.set_x (_LeftEdge + _AgeGroupIndent + dx) pdf in
        let pdf := FPDF.set_font _ContFont pdf in
        FPDF.cell (w_col - _AgeGroupIndent - dx) _AgeGroupHeight "(cont)" pdf
      else pdf
  | None => pdf
  end.

(** The local variables of [gen_formatted_report]: the document and the
    cursor [(c, x, y)]. *)
Record cursor : Type := Cursor {
  pdf : FPDF.t;
  c : nat;
  x : Q;
  y : Q;
}.

(** "jump to next column/page if necessary", before an age group. *)
Definition age_group_break (nswimmers : nat) (st : cursor) : cursor :=
  let required_height :=
    _AgeGroupHeight + _EventHeight + _EventPad
    + inject_Z (Z.of_nat nswimmers) * _SwimmerHeight in
  if Qlt_le_dec _BottomEdge (y st + required_height) then
    let c := (c st + 1)%nat in
    let x := x st + w_col in
    let y := _TopEdge in
    if decide (2 < c)%nat then Cursor (add_page (pdf st) w_col None) 0 _LeftEdge y
    else Cursor (pdf st) c x y
  else st.

(** "jump to next column/page if necessary", before an event. *)
Definition event_break (ag : string) (nswimmers : nat) (st : cursor)
    : cursor :=
  let required_height :=
    _EventHeight + _EventPad + inject_Z (Z.of_nat nswimmers) * _SwimmerHeight in
  if Qlt_le_dec _BottomEdge (y st + required_height) then
    let c := (c st + 1)%nat in
    let x := x st + w_col in
    let y := _TopEdge in
    if decide (2 < c)%nat
    then Cursor (add_page (pdf st) w_col (Some ag)) 0 _LeftEdge (y + _AgeGroupHeight)
    else Cursor (pdf st) c x y
  else st.

(** The body of [for name, time, _ in swimmers]. *)
Definition place_swimmer (st : cursor) (swimmer : entry) : cursor :=
  let '(name, time, _) := swimmer in
  let pdf := FPDF.set_font _SwimmerFont (pdf st) in
  let w_name := w_col - (_SwimmerIndent + _TimeWidth + _CellPad + _ColumnPad) in
  let w_actual := get_string_width (FPDF.cur_font pdf) name in
  let pdf :=
    if Qlt_le_dec w_name w_actual
    then FPDF.set_font (ScaledFont (_SwimmerFont_size * w_name / w_actual)) pdf
    else pdf in
  let pdf := FPDF.set_xy (x st + _SwimmerIndent) (y st) pdf in
  let pdf := FPDF.cell w_name _SwimmerHeight name pdf in
  let pdf := FPDF.set_font _SwimmerFont pdf in
  let pdf := FPDF.set_x (x st + w_col - _TimeWidth - _ColumnPad) pdf in
  let pdf := FPDF.cell _TimeWidth _SwimmerHeight (format_time time) pdf in
  Cursor pdf (c st) (x st) (y st + _SwimmerHeight).

(** The event header, once the break is decided. *)
Definition place_event_header (event : string) (st : cursor) : cursor :=
  let header :=
    FPDF.cell (w_col - _EventIndent) _EventHeight event
      (FPDF.set_xy (x st + _EventIndent) (y st)
         (FPDF.set_font _EventFont (pdf st))) in
  Cursor header (c st) (x st) (y st + _EventHeight).

(** The event header and the rows. *)
Definition emit_event (event : string) (swimmers : list entry)
    (st : cursor) : cursor :=
  let st := place_event_header event st in
  let st := foldl place_swimmer st swimmers in
  Cursor (pdf st) (c st) (x st) (y st + _EventPad).

(** The body of [for event,swimmers in events]. *)
Definition place_event (ag : string) (st : cursor)
    (block : string * list entry) : cursor :=
  let '(event, swimmers) := block in
  emit_event event swimmers (event_break ag (length swimmers) st).

(** The body of [for ag,events in data]. *)
Definition place_age_group (st : cursor)
    (group : string * list (string * list entry)) : result cursor :=
  let '(ag, events) := group in
  first <- index events 0 ;;
  let nswimmers := length first.2 in
  let st := age_group_break nswimmers st in
  let header :=
    FPDF.cell (w_col - _AgeGroupIndent) _AgeGroupHeight ag
      (FPDF.set_xy (x st + _AgeGroupIndent) (y st)
         (FPDF.set_font _AgeGroupFont (pdf st))) in
  let st := Cursor header (c st) (x st) (y st + _AgeGroupHeight) in
  let st := foldl (place_event ag) st events in
  Ok (Cursor (pdf st) (c st) (x st) (y st + _AgeGroupPad)).

Fixpoint place_age_groups (st : cursor) (data : outline) : result cursor :=
  match data with
  | [] => Ok st
  | group :: data' =>
      st' <- place_age_group st group ;;
      place_age_groups st' data'
  end.

(** [gen_formatted_report(data, dst)]: the document written to [dst]. *)
Definition gen_formatted_report (data : outline) : result FPDF.t :=
  let first_page := add_page FPDF.new w_col None in
  st <- place_age_groups (Cursor first_page 0 _LeftEdge _TopEdge) data ;;
  Ok (pdf st).

(** [main()], from the rows of [args.src]: what is printed, and the
    document written or the exception that ended the run. *)
Definition main (src : string) (rows : list (list string)) : io FPDF.t :=
  data <~ read_data src rows ;;
  report <~ lift (gen_unformatted_report data) ;;
  lift (gen_formatted_report report).

End Layout.

End gen_best_times.

(** ** gen_all.py *)

Module gen_all.

Definition BestTimesColumns := gen_best_times.ExpectedColumns.
Definition BlackLeadColumns := gen_black_ribbons.LeadColumns.
Definition BlackTailColumns := gen_black_ribbons.TailColumns.
Definition BlackMeetColumns := gen_black_ribbons.MeetColumns.

(** A file of the directory: its path, the rows the CSV reader yields
    ([None] when the file cannot be opened or read) and its modification
    time. *)
Record file : Type := File {
  path : string;
  csv : option (list (list string));
  st_mtime : Q;
}.

Definition open (f : file) : result (list (list string)) :=
  match csv f with
  | Some rows => Ok rows
  | None => Raise OSError
  end.

(** [next(reader)] *)
Definition next {A} (reader : list A) : result (A * list A) :=
  match reader with
  | x :: reader' => Ok (x, reader')
  | [] => Raise StopIteration
  end.

(** [for found,expected in zip(header,columns): assert found == expected] *)
Fixpoint check_columns (cols : list (string * string)) : result unit :=
  match cols with
  | [] => Ok tt
  | (found, expected) :: cols' =>
      _ <- assert (bool_decide (found = expected)) "" ;;
      check_columns cols'
  end.

Definition is_best_times_file (f : file) : bool :=
  match (reader <- open f ;;
         hd <- next reader ;;
         let header := hd.1 in
         _ <- assert (bool_decide (length header = length BestTimesColumns)) "" ;;
         check_columns (zip header BestTimesColumns)) with
  | Ok _ => true
  | Raise _ => false
  end.

(** One pass of [for meet in range(n_meets)] over a row. *)
Fixpoint scan_line (n_lead n_meet : nat) (line : list string)
    (blocks : list nat) (meets_in_file : gmap nat string)
    : result (gmap nat string) :=
  match blocks with
  | [] => Ok meets_in_file
  | meet :: blocks' =>
      time <- index line (n_lead + 2 + meet * n_meet) ;;
      if truthy time then
        if bool_decide (meets_in_file !! meet = None) then
          name <- index line (n_lead + meet * n_meet) ;;
          scan_line n_lead n_meet line blocks' (<[meet := name]> meets_in_file)
        else scan_line n_lead n_meet line blocks' meets_in_file
      else scan_line n_lead n_meet line blocks' meets_in_file
  end.

Fixpoint scan_lines (n_lead n_meet n_meets : nat) (reader : list (list string))
    (meets_in_file : gmap nat string) : result (gmap nat string) :=
  match reader with
  | [] => Ok meets_in_file
  | line :: reader' =>
      meets' <- scan_line n_lead n_meet line (seq 0 n_meets) meets_in_file ;;
      scan_lines n_lead n_meet n_meets reader' meets'
  end.

(** The columns the header is compared with. *)
Definition expected_columns (n_meets : nat) : list string :=
  let meet_columns :=
    i ← seq 0 n_meets; mc ← BlackMeetColumns;
    ["Meet" +:+ pretty (i + 1) +:+ "-" +:+ mc] in
  BlackLeadColumns ++ meet_columns ++ BlackTailColumns.

(** The body of the [try] block of [validate_black_ribbon_file]: the number
    of meets of the header. *)
Definition check_header (header : list string) : result nat :=
  let n_lead := length BlackLeadColumns in
  let n_tail := length BlackTailColumns in
  let n_meet := length BlackMeetColumns in
  let n_meet_columns :=
    (Z.of_nat (length header) - Z.of_nat n_lead - Z.of_nat n_tail)%Z in
  _ <- assert (0 <? n_meet_columns)%Z "" ;;
  let n_meets := (n_meet_columns `div` Z.of_nat n_meet)%Z in
  let n_extra := (n_meet_columns `mod` Z.of_nat n_meet)%Z in
  _ <- assert (n_extra =? 0)%Z "" ;;
  _ <- check_columns (zip header (expected_columns (Z.to_nat n_meets))) ;;
  Ok (Z.to_nat n_meets).

(** [validate_black_ribbon_file(file)]: [None], or the dictionary from meet
    index to meet name. *)
Definition validate_black_ribbon_file (f : file) : option (gmap nat string) :=
  match (reader <- open f ;;
         hd <- next reader ;;
         let '(header, reader) := hd in
         n_meets <- check_header header ;;
         scan_lines (length BlackLeadColumns) (length BlackMeetColumns)
           n_meets reader ∅) with
  | Ok meets_in_file => Some meets_in_file
  | Raise _ => None
  end.

(** *** The discovery loop *)

Record selection : Type := Selection {
  best_times_file : option string;
  best_times_mtime : Q;
  black_ribbon_file : option string;
  black_ribbon_meets : option (gmap nat string);
}.

Definition initial : selection := Selection None 0 None None.

(** [max(meets.keys())] *)
Definition max_key (meets : option (gmap nat string)) : result nat :=
  match meets with
  | None => Raise AttributeError
  | Some meets =>
      match (map_to_list meets).*1 with
      | k :: ks => Ok (max k ks)
      | [] => Raise ValueError
      end
  end.

(** Truth value of a variable that holds [None] or a path. *)
Definition is_set (p : option string) : bool :=
  match p with
  | Some p => truthy p
  | None => false
  end.

(** The body of [for file in glob.glob(...)]. *)
Definition visit (st : selection) (f : file) : result selection :=
  if is_best_times_file f then
    if Qlt_le_dec (best_times_mtime st) (st_mtime f)
    then Ok (Selection (Some (path f)) (st_mtime f)
               (black_ribbon_file st) (black_ribbon_meets st))
    else Ok st
  else
    match validate_black_ribbon_file f with
    | Some meets =>
        if bool_decide (meets ≠ ∅) then
          let chosen :=
            Selection (best_times_file st) (best_times_mtime st)
              (Some (path f)) (Some meets) in
          if is_set (black_ribbon_file st) then
            new <- max_key (Some meets) ;;
            old <- max_key (black_ribbon_meets st) ;;
            if decide (old < new) then Ok chosen else Ok st
          else Ok chosen
        else Ok st
    | None => Ok st
    end.

Fixpoint discover (st : selection) (files : list file) : result selection :=
  match files with
  | [] => Ok st
  | f :: files' => st' <- visit st f ;; discover st' files'
  end.

(** The files the two generators are run on: the loop and the two
    assertions after it. *)
Definition selected (csv_dir : string) (files : list file)
    : result (string * string * gmap nat string) :=
  st <- discover initial files ;;
  _ <- assert (is_set (best_times_file st))
         ("No best times file found in " +:+ csv_dir) ;;
  _ <- assert (is_set (black_ribbon_file st))
         ("No athlete report card found in " +:+ csv_dir) ;;
  match best_times_file st, black_ribbon_file st, black_ribbon_meets st with
  | Some bt, Some br, Some meets => Ok (bt, br, meets)
  | _, _, _ => Raise AttributeError
  end.

End gen_all.

(** * Specifications *)

(** ** Properties of the runtime model *)

Section Runtime.

Context {A B : Type}.
Implicit Types (f : A -> result B) (l : list A).

Lemma traverse_fmap f (g : A -> B) l :
  (∀ x, x ∈ l → f x = Ok (g x)) → traverse f l = Ok (g <$> l).
Proof.
  induction l as [|x l IH]; intros Hf; [done|]. cbn.
  rewrite (Hf x) by left. cbn. rewrite IH; [done|].
  intros y Hy. apply Hf. by right.
Qed.

Lemma traverse_total f l :
  (∀ x, x ∈ l → ∃ y, f x = Ok y) → ∃ ys, traverse f l = Ok ys.
Proof.
  induction l as [|x l IH]; intros Hf; [by eexists|].
  destruct (Hf x) as [y Hy]; [left|].
  destruct IH as [ys Hys]; [intros z Hz; apply Hf; by right|].
  exists (y :: ys). cbn. by rewrite Hy, Hys.
Qed.

Lemma traverse_elem_of f l ys y :
  traverse f l = Ok ys → y ∈ ys ↔ ∃ x, x ∈ l ∧ f x = Ok y.
Proof.
  revert ys. induction l as [|x l IH]; intros ys; cbn.
  - intros [= <-]. split; [by intros ?%elem_of_nil|].
    by intros (? & ?%elem_of_nil & _).
  - destruct (f x) as [z|] eqn:Hz; [|done]. cbn.
    destruct (traverse f l) as [zs|]; [|done]. cbn. intros [= <-].
    rewrite elem_of_cons, (IH zs eq_refl). split.
    + intros [->|(x' & ? & ?)]; [exists x|exists x']; split; try done;
        [left|by right].
    + intros (x' & [->|?]%elem_of_cons & Hx'); [left; congruence|right; eauto].
Qed.

End Runtime.

Lemma min_spec (p : Q) (ps : list Q) :
  Py.min p ps ∈ p :: ps ∧ ∀ q, q ∈ p :: ps → (Py.min p ps <= q)%Q.
Proof.
  unfold Py.min. revert p. induction ps as [|y ps IH]; intros p; cbn.
  - split; [left|]. intros q ->%list_elem_of_singleton. apply Qle_refl.
  - destruct (Qlt_le_dec y p) as [Hlt|Hle].
    + destruct (IH y) as [Hin Hmin]. split; [by right|].
      intros q [->|Hq]%elem_of_cons; [|by apply Hmin].
      apply Qle_trans with y; [apply Hmin; left|by apply Qlt_le_weak].
    + destruct (IH p) as [Hin Hmin]. split.
      * apply elem_of_cons in Hin as [->|Hin]; [left|right; by right].
      * intros q [->|[->|Hq]%elem_of_cons]%elem_of_cons.
        -- apply Hmin. left.
        -- apply Qle_trans with p; [apply Hmin; left|done].
        -- apply Hmin. by right.
Qed.

Section BlackRibbonLabels.

Import gen_black_ribbons.

(** The time string of meet block [i] of a row: the [ResultSec] column. *)
Definition block_time (line : list string) (i : nat) : option string :=
  line !! (10 + 6 * i).

(** Block [i] of the row has a non-empty time, whose value is [q]. *)
Definition has_time (line : list string) (i : nat) (q : Q) : Prop :=
  ∃ s, block_time line i = Some s ∧ s ≠ "" ∧ float s = Ok q.

(** [pb] is the least of the non-empty times of the blocks before [meet]. *)
Definition prior_best (line : list string) (meet : nat) (pb : Q) : Prop :=
  (∃ i, i < meet ∧ has_time line i pb)
  ∧ ∀ i q, i < meet → has_time line i q → (pb <= q)%Q.

(** The row is an improvement at [meet]. *)
Definition improved (line : list string) (meet : nat) (mt pb : Q) : Prop :=
  has_time line meet mt ∧ prior_best line meet pb ∧ (mt < pb)%Q.

(** A parsed row that reaches the date column of block [meet], the times
    of its blocks up to [meet] blank or numerals. *)
Definition parsed_row (line : list string) (meet : nat) : Prop :=
  13 + 6 * meet < length line
  ∧ ∀ (i : nat) s, (i <= meet)%nat → block_time line i = Some s → s ≠ "" →
      ∃ q, float s = Ok q.

Lemma truthy_iff s : truthy s = true ↔ s ≠ "".
Proof. destruct s; cbn; split; congruence. Qed.

Lemma getitem_last {A} (l : list A) (a : A) : getitem (l ++ [a]) (-1) = Ok a.
Proof.
  unfold getitem. change (0 <=? -1)%Z with false. cbv iota.
  rewrite length_app. cbn [length].
  assert ((0 <=? Z.of_nat (length l + 1) + -1)%Z = true) as -> by (apply Z.leb_le; lia).
  replace (Z.to_nat (Z.of_nat (length l + 1) + -1)) with (length l) by lia.
  unfold index. by rewrite list_lookup_middle.
Qed.

(** What [gen_unformatted_label] computes on a parsed row: the time strings
    of the blocks before [meet], and the one of [meet]. *)
Lemma gen_unformatted_label_unfold line meet :
  parsed_row line meet →
  ∃ (age_group last_name first_name age distance stroke s : string) (qs : list Q),
    block_time line meet = Some s
    ∧ (∀ q, q ∈ qs ↔ ∃ i, i < meet ∧ has_time line i q)
    ∧ gen_unformatted_label line meet =
        if negb (truthy s) then Ok None else
        meet_time <- float s ;;
        match qs with
        | [] => Ok None
        | p :: ps =>
            if Qle_bool (min p ps) meet_time then Ok None else
            Ok (Some (Label meet
                        (first_name +:+ " " +:+ last_name +:+ " (" +:+ age +:+ ")")
                        age_group distance stroke meet_time
                        (min p ps - meet_time)%Q))
        end.
Proof.
  intros [Hlen Hnum].
  destruct line as [|age_group [|c1 [|last_name [|first_name [|c4 [|age
    [|distance [|stroke rest]]]]]]]]; cbn [length] in Hlen; try lia.
  set (line := age_group :: _) in *.
  assert (Hget : ∀ i : nat, (i <= meet)%nat → ∃ s, line !! (10 + 6 * i) = Some s).
  { intros i Hi. apply lookup_lt_is_Some_2. cbn. lia. }
  destruct (lookup_lt_is_Some_2 line (13 + 6 * meet)) as [date Hdate];
    [cbn; lia|].
  pose (str := λ i, default "" (line !! (10 + 6 * i))).
  assert (Hstr : ∀ i : nat, (i <= meet)%nat → line !! (10 + 6 * i) = Some (str i)).
  { intros i Hi. unfold str. by destruct (Hget i Hi) as [s ->]. }
  destruct (traverse_total float (filter (λ t, truthy t) (str <$> seq 0 meet)))
    as [qs Hqs].
  { intros s [Hs (i & -> & Hi%elem_of_seq)%list_elem_of_fmap]%list_elem_of_filter.
    apply (Hnum i); [lia|apply Hstr; lia|]. by apply truthy_iff, Is_true_true. }
  exists age_group, last_name, first_name, age, distance, stroke, (str meet), qs.
  split; [apply Hstr; lia|]. split.
  { intros q. rewrite (traverse_elem_of _ _ _ _ Hqs). split.
    - intros (s & [Hs (i & -> & Hi%elem_of_seq)%list_elem_of_fmap]%list_elem_of_filter & Hq).
      exists i. split; [lia|]. exists (str i). split; [apply Hstr; lia|].
      split; [by apply truthy_iff, Is_true_true|done].
    - intros (i & Hi & s & Hs & Hne & Hq). exists s. split; [|done].
      apply list_elem_of_filter. split; [by apply Is_true_true, truthy_iff|].
      apply list_elem_of_fmap. exists i. split; [|apply elem_of_seq; lia].
      unfold block_time in Hs. rewrite Hstr in Hs by lia. congruence. }
  unfold gen_unformatted_label.
  change (take 8 line) with
    [age_group; c1; last_name; first_name; c4; age; distance; stroke].
  cbv beta iota.
  rewrite (traverse_fmap _ str).
  2:{ intros i Hi%elem_of_seq. unfold index.
      change (_NumLeadColumns + 2 + i * _NumColumnsPerMeet) with (10 + i * 6).
      replace (10 + i * 6) with (10 + 6 * i) by lia. rewrite Hstr; [done|lia]. }
  replace (meet + 1) with (S meet) by lia. rewrite seq_S, fmap_app. cbn [fmap list_fmap bind plus].
  rewrite getitem_last, removelast_last. cbn [bind].
  destruct (truthy (str meet)); cbn [negb]; [|done].
  destruct (float (str meet)) as [mt|]; cbn [bind]; [|done].
  rewrite Hqs. cbn [bind]. destruct qs as [|p ps]; [done|].
  destruct (Qle_bool _ _); [done|].
  unfold index.
  change (_NumLeadColumns + 5 + meet * _NumColumnsPerMeet) with (13 + meet * 6).
  replace (13 + meet * 6) with (13 + 6 * meet) by lia. by rewrite Hdate.
Qed.

End BlackRibbonLabels.

Section BlackRibbonLabelsSpec.

Import gen_black_ribbons.

Lemma has_time_fun line i q q' : has_time line i q → has_time line i q' → q = q'.
Proof. intros (s & Hs & _ & Hq) (s' & Hs' & _ & Hq'). congruence. Qed.

Lemma prior_best_of_min line meet p ps :
  (∀ q, q ∈ p :: ps ↔ ∃ i, i < meet ∧ has_time line i q) →
  prior_best line meet (min p ps).
Proof.
  intros Hqs. destruct (min_spec p ps) as [Hin Hmin]. split.
  - by apply Hqs.
  - intros i q Hi Hq. apply Hmin, Hqs. eauto.
Qed.

Lemma prior_best_unique line meet pb pb' :
  prior_best line meet pb → prior_best line meet pb' → (pb == pb')%Q.
Proof.
  intros [(i & Hi & Hpb) Hmin] [(i' & Hi' & Hpb') Hmin'].
  apply Qle_antisym; eauto.
Qed.

(** The three outcomes of [gen_unformatted_label] on a parsed row. *)
Lemma gen_unformatted_label_cases line meet :
  parsed_row line meet →
  (gen_unformatted_label line meet = Ok None
   ∧ ¬ ∃ mt pb, improved line meet mt pb)
  ∨ ∃ lbl mt pb,
      gen_unformatted_label line meet = Ok (Some lbl)
      ∧ improved line meet mt pb
      ∧ new_time lbl = mt ∧ time_drop lbl = (pb - mt)%Q.
Proof.
  intros Hrow.
  destruct (gen_unformatted_label_unfold line meet Hrow)
    as (ag & ln & fn & age & dist & stroke & s & qs & Hs & Hqs & ->).
  destruct Hrow as [_ Hnum].
  destruct (truthy s) eqn:Ht; cbn [negb].
  2:{ left. split; [done|]. intros (mt & pb & (s' & Hs' & Hne & _) & _).
      rewrite Hs in Hs'. injection Hs' as <-. by destruct s. }
  assert (s ≠ "") as Hne by by apply truthy_iff.
  destruct (Hnum meet s) as [mt Hmt]; [lia|done|done|].
  assert (has_time line meet mt) as Hmeet by by exists s.
  rewrite Hmt. cbn [bind]. destruct qs as [|p ps].
  { left. split; [done|]. intros (mt' & pb & _ & [(i & Hi & Hpb) _] & _).
    eapply elem_of_nil, Hqs. eauto. }
  pose proof (prior_best_of_min _ _ _ _ Hqs) as Hbest.
  destruct (Qle_bool (min p ps) mt) eqn:Hle.
  - left. split; [done|]. intros (mt' & pb & Hmt' & Hpb & Hlt).
    rewrite (has_time_fun _ _ _ _ Hmt' Hmeet) in Hlt.
    apply Qle_bool_iff in Hle.
    rewrite (prior_best_unique _ _ _ _ Hpb Hbest) in Hlt.
    by apply Qlt_not_le in Hlt.
  - right. eexists _, mt, (min p ps). split; [done|]. split; [|done].
    split; [done|]. split; [done|].
    apply Qnot_le_lt. intros ?%Qle_bool_iff. congruence.
Qed.

(** [gen_unformatted_labels] keeps the labels of the rows that have one. *)
Lemma gen_unformatted_labels_filter data meet :
  Forall (λ line, parsed_row line meet) data →
  ∃ labels, gen_unformatted_labels data meet = Ok labels
    ∧ ∀ lbl, lbl ∈ labels ↔
        ∃ line, line ∈ data ∧ gen_unformatted_label line meet = Ok (Some lbl).
Proof.
  induction 1 as [|line data Hrow _ (labels & Hlabels & IH)].
  - exists []. split; [done|]. intros lbl. split; [by intros ?%elem_of_nil|].
    by intros (? & ?%elem_of_nil & _).
  - cbn. rewrite Hlabels.
    destruct (gen_unformatted_label_cases line meet Hrow)
      as [[Hl _]|(lbl0 & mt & pb & Hl & _)]; rewrite Hl; cbn [bind].
    + exists labels. split; [done|]. intros lbl. rewrite IH. split.
      * intros (l & ? & ?). exists l. split; [by right|done].
      * intros (l & [->|?]%elem_of_cons & Hlbl); [congruence|eauto].
    + exists (lbl0 :: labels). split; [done|]. intros lbl.
      rewrite elem_of_cons, IH. split.
      * intros [->|(l & ? & ?)]; [exists line|exists l]; split; try done;
          [left|by right].
      * intros (l & [->|?]%elem_of_cons & Hlbl); [left; congruence|right; eauto].
Qed.

(** C1. For the rows of a report card and a target meet,
    [gen_unformatted_label] returns a label exactly when the time of block
    [meet] is not empty, some earlier block has a time, and the meet time
    is strictly below the least earlier time; the label then has the meet
    time as [new_time] and the least earlier time minus the meet time, a
    positive number, as [time_drop]; in every other case it returns [None],
    and [gen_unformatted_labels] collects exactly the labels returned. *)
Theorem gen_unformatted_label_improvement data meet :
  Forall (λ line, parsed_row line meet) data →
  (∃ labels, gen_unformatted_labels data meet = Ok labels
     ∧ ∀ lbl, lbl ∈ labels ↔
         ∃ line, line ∈ data ∧ gen_unformatted_label line meet = Ok (Some lbl))
  ∧ ∀ line, line ∈ data →
      (∀ lbl, gen_unformatted_label line meet = Ok (Some lbl) →
         ∃ mt pb, improved line meet mt pb
           ∧ new_time lbl = mt ∧ time_drop lbl = (pb - mt)%Q
           ∧ (0 < time_drop lbl)%Q)
      ∧ (∀ mt pb, improved line meet mt pb →
           ∃ lbl, gen_unformatted_label line meet = Ok (Some lbl)
             ∧ new_time lbl = mt ∧ (time_drop lbl == pb - mt)%Q)
      ∧ ((¬ ∃ mt pb, improved line meet mt pb) →
           gen_unformatted_label line meet = Ok None).
Proof.
  intros Hdata. split; [by apply gen_unformatted_labels_filter|].
  intros line Hline. rewrite Forall_forall in Hdata.
  destruct (gen_unformatted_label_cases line meet (Hdata _ Hline))
    as [[Hl Hno]|(lbl0 & mt & pb & Hl & Himp & Hnew & Hdrop)]; rewrite Hl.
  - split; [done|]. split; [|done]. intros mt pb Himp. destruct Hno; eauto.
  - split; [|split].
    + intros lbl [= <-]. exists mt, pb. repeat split; try done; try apply Himp.
      rewrite Hdrop. destruct Himp as (_ & _ & Hlt).
      by apply Qlt_minus_iff in Hlt.
    + intros mt' pb' (Hmt' & Hpb' & _). destruct Himp as (Hmt & Hpb & _).
      exists lbl0. split; [done|]. split.
      * rewrite Hnew. eapply has_time_fun; eauto.
      * rewrite Hdrop, (has_time_fun _ _ _ _ Hmt' Hmt).
        by rewrite (prior_best_unique _ _ _ _ Hpb' Hpb).
    + intros []. eauto.
Qed.

Definition sample_row : list string :=
  [ "Girls 9-10"; "17"; "Doe"; "Ann"; "Doe_Ann"; "9"; "50"; "free";
    "Jun 1 Relay Carnival"; "32.10"; "32.1"; ""; "1"; "06/01";
    "Jun 8 A Meet vs Upper County"; "31.80"; "31.8"; "Y"; "3"; "06/08";
    "Jun 15 A Meet at Quail Valley"; "31.50"; "31.5"; "Y"; "5"; "06/15";
    "3"; "2"; "9"; "0.6"; "1.9" ].

Lemma sample_row_parsed : parsed_row sample_row 2.
Proof.
  split; [cbn; lia|]. intros i s Hi Hs _.
  assert (i = 0 ∨ i = 1 ∨ i = 2) as [->|[->| ->]] by lia;
    injection Hs as <-; eexists; vm_compute; reflexivity.
Qed.

Lemma gen_unformatted_label_improvement_witness :
  ∃ lbl, gen_unformatted_label sample_row 2 = Ok (Some lbl)
    ∧ ∃ mt pb, improved sample_row 2 mt pb
        ∧ new_time lbl = mt ∧ time_drop lbl = (pb - mt)%Q
        ∧ (0 < time_drop lbl)%Q.
Proof.
  eexists. split; [vm_compute; reflexivity|].
  refine (proj1 (proj2 (gen_unformatted_label_improvement [sample_row] 2 _)
                   sample_row _) _ _).
  - constructor; [exact sample_row_parsed|constructor].
  - left.
  - vm_compute; reflexivity.
Defined.

End BlackRibbonLabelsSpec.

(** ** Meet selection *)

Section MeetSelection.

Import gen_black_ribbons.

(** Meet index [i] has an entry in the meet directory. *)
Definition has_entry (meets : meet_directory) (i : nat) : Prop :=
  ∃ info, meets !! i = Some (Some info).

(** At least two meet indices have an entry. *)
Definition two_meets (meets : meet_directory) : Prop :=
  ∃ i j, i ≠ j ∧ has_entry meets i ∧ has_entry meets j.

Definition no_such_meet (meet_number : Z) : list string :=
  [ ""; "Sorry:: there is no meet #" +:+ pretty meet_number; "";
    "  Rerun with the --list argument to see list of meets" ].

Definition no_meet_data (src : string) : list string :=
  [ ""; "Sorry:: cannot find any meet data in " +:+ src ].

Lemma elem_of_enumerate {A} (l : list A) i v :
  (i, v) ∈ enumerate l ↔ l !! i = Some v.
Proof.
  unfold enumerate. rewrite list_elem_of_lookup. split.
  - intros (k & [Hk Hv]%lookup_zip_Some). apply lookup_seq in Hk as [-> _].
    done.
  - intros Hv. exists i. apply lookup_zip_Some. split; [|done].
    apply lookup_seq. split; [done|]. by apply lookup_lt_Some in Hv.
Qed.

Lemma elem_of_weeks_of meets i : i ∈ weeks_of meets ↔ has_entry meets i.
Proof.
  unfold weeks_of, has_entry. rewrite list_elem_of_fmap. split.
  - intros ([k v] & -> & [Hsome Hin%elem_of_enumerate]%list_elem_of_filter).
    cbn in Hsome. destruct Hsome as [info ->]. by exists info.
  - intros [info Hinfo]. exists (i, Some info). split; [done|].
    apply list_elem_of_filter. split; [by eexists|by apply elem_of_enumerate].
Qed.

Lemma NoDup_weeks_of meets : NoDup (weeks_of meets).
Proof.
  unfold weeks_of, enumerate.
  eapply sublist_NoDup; [|apply fmap_sublist, sublist_filter].
  rewrite fst_zip by (by rewrite length_seq). apply NoDup_seq.
Qed.

Lemma weeks_of_two meets : 2 ≤ length (weeks_of meets) ↔ two_meets meets.
Proof.
  pose proof (NoDup_weeks_of meets) as Hnd. unfold two_meets.
  setoid_rewrite <- elem_of_weeks_of.
  destruct (weeks_of meets) as [|a [|b l]]; cbn [length].
  - split; [lia|]. intros (i & _ & _ & ?%elem_of_nil & _). done.
  - split; [lia|].
    intros (i & j & Hij & ->%list_elem_of_singleton & ->%list_elem_of_singleton).
    done.
  - split; [|lia]. intros _. exists a, b. split.
    + apply NoDup_cons in Hnd as [Hab _]. intros ->. apply Hab. left.
    + split; [left|right; left].
Qed.

Lemma weeks_of_short meets : length (weeks_of meets) < 2 ↔ ¬ two_meets meets.
Proof. rewrite <- weeks_of_two. lia. Qed.

Lemma max_spec (w : nat) (ws : list nat) :
  Py.max w ws ∈ w :: ws ∧ ∀ k, k ∈ w :: ws → k ≤ Py.max w ws.
Proof.
  unfold Py.max. revert w. induction ws as [|y ws IH]; intros w; cbn.
  - split; [left|]. by intros k ->%list_elem_of_singleton.
  - destruct (decide (w < y)) as [Hlt|Hge].
    + destruct (IH y) as [Hin Hmax]. split; [by right|].
      intros k [->|Hk]%elem_of_cons; [|by apply Hmax].
      etrans; [|apply Hmax; left]. lia.
    + destruct (IH w) as [Hin Hmax]. split.
      * apply elem_of_cons in Hin as [->|Hin]; [left|right; by right].
      * intros k [->|[->|Hk]%elem_of_cons]%elem_of_cons.
        -- apply Hmax. left.
        -- etrans; [|apply Hmax; left]. lia.
        -- apply Hmax. by right.
Qed.

(** [select_latest_meet] with at least two meets: the highest index that
    has an entry. *)
Lemma select_latest_meet_ok meets src :
  two_meets meets →
  ∃ k, select_latest_meet meets src = IO [] (Ok k)
    ∧ has_entry meets k ∧ (∀ i, has_entry meets i → i ≤ k) ∧ 1 ≤ k.
Proof.
  intros Htwo. unfold select_latest_meet.
  rewrite bool_decide_eq_false_2 by (by rewrite weeks_of_short; intros []).
  destruct Htwo as (i & j & Hij & Hi%elem_of_weeks_of & Hj%elem_of_weeks_of).
  pose proof (elem_of_weeks_of meets) as Hweeks.
  destruct (weeks_of meets) as [|w ws]; [by apply elem_of_nil in Hi|].
  destruct (max_spec w ws) as [Hin Hmax].
  exists (Py.max w ws). split; [done|]. split; [by apply Hweeks|].
  split; [intros k Hk; by apply Hmax, Hweeks|].
  apply Hmax in Hi, Hj. lia.
Qed.

Lemma select_latest_meet_fail meets src :
  ¬ two_meets meets →
  select_latest_meet meets src = IO (no_meet_data src) (Raise (SystemExit 1)).
Proof.
  intros Hfew. unfold select_latest_meet.
  by rewrite bool_decide_eq_true_2 by (by apply weeks_of_short).
Qed.

Lemma validate_selected_meet_ok meets (m : Z) :
  (0 <= m)%Z → has_entry meets (Z.to_nat m) →
  validate_selected_meet meets m = IO [] (Ok tt).
Proof.
  intros Hm [info Hinfo]. unfold validate_selected_meet, getitem, index.
  by rewrite (proj2 (Z.leb_le 0 m) Hm), Hinfo.
Qed.

Lemma validate_selected_meet_fail meets (m : Z) :
  (0 <= m)%Z → ¬ has_entry meets (Z.to_nat m) →
  validate_selected_meet meets m = IO (no_such_meet m) (Raise (SystemExit 1)).
Proof.
  intros Hm Hno. unfold validate_selected_meet, getitem, index.
  rewrite (proj2 (Z.leb_le 0 m) Hm).
  destruct (meets !! Z.to_nat m) as [[info|]|] eqn:E; [|done..].
  destruct Hno. by exists info.
Qed.

(** C5. Without [--meet], the meet that [main] selects is the highest index
    with an entry in the meet directory, and when fewer than two indices
    have an entry the run prints its message and exits with status 1. With
    [--meet m], an [m] that has no entry, in or out of the range of the
    directory, ends the run with the "no meet" message and status 1, and
    an [m] that has an entry is selected. *)
Theorem meet_selection meets src :
  (two_meets meets →
     ∃ k, select_meet meets src None = IO [] (Ok (Z.of_nat k))
       ∧ has_entry meets k ∧ ∀ i, has_entry meets i → i ≤ k)
  ∧ (¬ two_meets meets →
       select_meet meets src None = IO (no_meet_data src) (Raise (SystemExit 1))
       ∧ exit_status (select_meet meets src None) = 1%Z)
  ∧ (∀ m : Z, (1 <= m)%Z → ¬ has_entry meets (Z.to_nat m) →
       select_meet meets src (Some m) = IO (no_such_meet m) (Raise (SystemExit 1))
       ∧ exit_status (select_meet meets src (Some m)) = 1%Z)
  ∧ (∀ m : Z, (1 <= m)%Z → has_entry meets (Z.to_nat m) →
       select_meet meets src (Some m) = IO [] (Ok m)).
Proof.
  repeat split.
  - intros Htwo.
    destruct (select_latest_meet_ok meets src Htwo) as (k & Hk & He & Hmax & _).
    exists k. cbn. by rewrite Hk.
  - cbn. by rewrite select_latest_meet_fail.
  - cbn. by rewrite select_latest_meet_fail.
  - cbn. rewrite bool_decide_eq_true_2 by lia.
    by rewrite validate_selected_meet_fail by (done || lia).
  - cbn. rewrite bool_decide_eq_true_2 by lia.
    by rewrite validate_selected_meet_fail by (done || lia).
  - intros m Hm He. cbn. rewrite bool_decide_eq_true_2 by lia.
    by rewrite validate_selected_meet_ok by (done || lia).
Qed.

Definition sample_meets : meet_directory :=
  [ Some ("Jun 1 Time Trials", "06/01"); Some ("Jun 8 A Meet", "06/08");
    None; Some ("Jun 22 A Meet", "06/22"); None ].

Lemma sample_meets_two : two_meets sample_meets.
Proof. exists 0, 1. repeat split; [done|by eexists|by eexists]. Qed.

Lemma sample_meets_no_entry (m : Z) :
  m = 2%Z ∨ m = 7%Z → ¬ has_entry sample_meets (Z.to_nat m).
Proof. intros [-> | ->] [info Hinfo]; discriminate Hinfo. Qed.

Lemma meet_selection_witness :
  (∃ k, select_meet sample_meets "rc.csv" None = IO [] (Ok (Z.of_nat k))
     ∧ has_entry sample_meets k ∧ ∀ i, has_entry sample_meets i → i ≤ k)
  ∧ exit_status (select_meet sample_meets "rc.csv" (Some 7%Z)) = 1%Z
  ∧ exit_status (select_meet sample_meets "rc.csv" (Some 2%Z)) = 1%Z
  ∧ select_meet sample_meets "rc.csv" (Some 3%Z) = IO [] (Ok 3%Z)
  ∧ exit_status (select_meet [Some ("Jun 1 Time Trials", "06/01")] "rc.csv" None)
    = 1%Z.
Proof.
  pose proof (meet_selection sample_meets "rc.csv") as (Hauto & _ & Hno & Hyes).
  split; [exact (Hauto sample_meets_two)|].
  split; [apply (Hno 7%Z); [lia|apply sample_meets_no_entry; auto]|].
  split; [apply (Hno 2%Z); [lia|apply sample_meets_no_entry; auto]|].
  split; [apply (Hyes 3%Z); [lia|by eexists]|].
  apply (meet_selection [Some ("Jun 1 Time Trials", "06/01")] "rc.csv").
  intros (i & j & Hij & [? Hi] & [? Hj]).
  apply lookup_lt_Some in Hi, Hj. cbn in Hi, Hj. lia.
Defined.

(** C10. When the automatic selection succeeds, the meet it returns is
    never index 0. *)
Theorem select_latest_meet_positive meets src k :
  outcome (select_latest_meet meets src) = Ok k → 1 ≤ k.
Proof.
  destruct (decide (2 ≤ length (weeks_of meets))) as [Htwo%weeks_of_two|Hfew].
  - destruct (select_latest_meet_ok meets src Htwo) as (k' & -> & _ & _ & Hk).
    by intros [= <-].
  - rewrite select_latest_meet_fail; [done|]. apply weeks_of_short. lia.
Qed.

Lemma select_latest_meet_positive_witness :
  outcome (select_latest_meet sample_meets "rc.csv") = Ok 3
  ∧ 1 ≤ 3.
Proof.
  split; [reflexivity|].
  apply (select_latest_meet_positive sample_meets "rc.csv" 3). reflexivity.
Defined.

End MeetSelection.

(** ** The header of a report card *)

Section ReportCardHeader.

Import gen_black_ribbons.

(** The header the specification asks for: the 8 lead names, [n] blocks of
    the 6 meet names prefixed ["Meet1-"], ["Meet2-"], ..., the 5 tail names. *)
Fixpoint meet_blocks (first n : nat) : list string :=
  match n with
  | 0 => []
  | S n' =>
      ((λ mc, "Meet" +:+ pretty first +:+ "-" +:+ mc) <$> MeetColumns)
      ++ meet_blocks (S first) n'
  end.

Definition report_card_header (n : nat) : list string :=
  LeadColumns ++ meet_blocks 1 n ++ TailColumns.

Lemma meet_blocks_bind first n :
  (i ← seq first n; mc ← MeetColumns; ["Meet" +:+ pretty (i + 1) +:+ "-" +:+ mc])
  = meet_blocks (S first) n.
Proof.
  revert first. induction n as [|n IH]; intros first; [done|].
  cbn [seq meet_blocks]. rewrite bind_cons, IH.
  replace (first + 1) with (S first) by lia. done.
Qed.

Lemma expected_columns_header n : expected_columns n = report_card_header n.
Proof. unfold expected_columns. by rewrite meet_blocks_bind. Qed.

Lemma gen_all_expected_columns n :
  gen_all.expected_columns n = report_card_header n.
Proof. unfold gen_all.expected_columns. by rewrite meet_blocks_bind. Qed.

Lemma length_meet_blocks first n : length (meet_blocks first n) = 6 * n.
Proof.
  revert first. induction n as [|n IH]; intros first; [done|].
  cbn [meet_blocks]. rewrite length_app, IH, length_fmap. cbn. lia.
Qed.

Lemma length_report_card_header n : length (report_card_header n) = 13 + 6 * n.
Proof.
  unfold report_card_header. rewrite !length_app, length_meet_blocks. cbn. lia.
Qed.

Lemma check_columns_eq i (l k : list string) :
  length l = length k →
  check_columns i (zip l k) = Ok tt ↔ l = k.
Proof.
  revert i k. induction l as [|x l IH]; intros i [|y k] Hlen; try done.
  cbn. injection Hlen as Hlen. unfold assert.
  case_bool_decide as Hxy; cbn.
  - rewrite (IH _ _ Hlen). split; [intros ->; by subst|by intros [= _ ->]].
  - split; [done|by intros [= ? _]].
Qed.

Lemma gen_all_check_columns_eq (l k : list string) :
  length l = length k →
  gen_all.check_columns (zip l k) = Ok tt ↔ l = k.
Proof.
  revert k. induction l as [|x l IH]; intros [|y k] Hlen; try done.
  cbn. injection Hlen as Hlen. unfold assert.
  case_bool_decide as Hxy; cbn.
  - rewrite (IH _ Hlen). split; [intros ->; by subst|by intros [= _ ->]].
  - split; [done|by intros [= ? _]].
Qed.

(** The number of meets inferred from a header. *)
Definition inferred_meets (header : list string) : Z :=
  ((Z.of_nat (length header) - 13) `div` 6)%Z.
Definition inferred_extra (header : list string) : Z :=
  ((Z.of_nat (length header) - 13) `mod` 6)%Z.

Lemma check_header_Ok header n :
  check_header header = Ok n ↔ 1 ≤ n ∧ header = report_card_header n.
Proof.
  unfold check_header.
  change (Z.of_nat (_NumLeadColumns + _NumTailColumns)) with 13%Z.
  change (Z.of_nat _NumColumnsPerMeet) with 6%Z.
  set (cols := (Z.of_nat (length header) - 13)%Z).
  unfold assert. split.
  - destruct (6 <=? cols)%Z eqn:H6; cbn [bind]; [|done].
    destruct (cols `mod` 6 =? 0)%Z eqn:Hx; cbn [bind]; [|done].
    apply Z.leb_le in H6. apply Z.eqb_eq in Hx.
    pose proof (Z.div_mod cols 6 ltac:(done)) as Hdiv.
    destruct (check_columns 0 _) as [[]|] eqn:Hc; cbn [bind]; [|done].
    intros [= <-]. split; [lia|].
    rewrite expected_columns_header in Hc. apply check_columns_eq in Hc; [done|].
    rewrite length_report_card_header. lia.
  - intros [Hn ->]. subst cols. rewrite length_report_card_header.
    replace (Z.of_nat (13 + 6 * n) - 13)%Z with (Z.of_nat n * 6)%Z by lia.
    rewrite Z.mod_mul, Z.div_mul by done. rewrite Nat2Z.id.
    rewrite (proj2 (Z.leb_le _ _)) by lia. cbn [bind Z.eqb].
    rewrite expected_columns_header.
    by rewrite (proj2 (check_columns_eq 0 _ _ eq_refl)).
Qed.

Lemma gen_all_check_header_Ok header n :
  gen_all.check_header header = Ok n ↔ 1 ≤ n ∧ header = report_card_header n.
Proof.
  unfold gen_all.check_header.
  change (length gen_all.BlackLeadColumns) with 8.
  change (length gen_all.BlackTailColumns) with 5.
  change (length gen_all.BlackMeetColumns) with 6.
  set (cols := (Z.of_nat (length header) - Z.of_nat 8 - Z.of_nat 5)%Z).
  unfold assert. split.
  - destruct (0 <? cols)%Z eqn:H6; cbn [bind]; [|done].
    destruct (cols `mod` Z.of_nat 6 =? 0)%Z eqn:Hx; cbn [bind]; [|done].
    apply Z.ltb_lt in H6. apply Z.eqb_eq in Hx.
    pose proof (Z.div_mod cols 6 ltac:(done)) as Hdiv.
    destruct (gen_all.check_columns _) as [[]|] eqn:Hc; cbn [bind]; [|done].
    intros [= <-]. split; [lia|].
    rewrite gen_all_expected_columns in Hc.
    apply gen_all_check_columns_eq in Hc; [done|].
    rewrite length_report_card_header. lia.
  - intros [Hn ->]. subst cols. rewrite length_report_card_header.
    replace (Z.of_nat (13 + 6 * n) - Z.of_nat 8 - Z.of_nat 5)%Z
      with (Z.of_nat n * 6)%Z by lia.
    change (Z.of_nat 6) with 6%Z.
    rewrite Z.mod_mul, Z.div_mul by done. rewrite Nat2Z.id.
    rewrite (proj2 (Z.ltb_lt _ _)) by lia. cbn [bind Z.eqb].
    rewrite gen_all_expected_columns.
    by rewrite (proj2 (gen_all_check_columns_eq _ _ eq_refl)).
Qed.

Lemma inferred_of_header n :
  inferred_meets (report_card_header n) = Z.of_nat n
  ∧ inferred_extra (report_card_header n) = 0%Z.
Proof.
  unfold inferred_meets, inferred_extra. rewrite length_report_card_header.
  replace (Z.of_nat (13 + 6 * n) - 13)%Z with (Z.of_nat n * 6)%Z by lia.
  by rewrite Z.mod_mul, Z.div_mul.
Qed.

(** A header is rejected by [read_data] with a message and exit status 1,
    and by the discovery scan with [None]. *)
Lemma rejected_header header src lines p t :
  (¬ ∃ n, 1 ≤ n ∧ header = report_card_header n) →
  (∃ msg, read_data src (header :: lines) = IO [msg] (Raise (SystemExit 1)))
  ∧ gen_all.validate_black_ribbon_file (gen_all.File p (Some (header :: lines)) t)
    = None.
Proof.
  intros Hno. split.
  - unfold read_data. cbn [take index lookup list_lookup lift io_bind].
    destruct (check_header header) as [n|e] eqn:Hc.
    + destruct Hno. exists n. by apply check_header_Ok.
    + cbn. by eexists.
  - unfold gen_all.validate_black_ribbon_file. cbn.
    destruct (gen_all.check_header header) as [n|e] eqn:Hc; [|done].
    destruct Hno. exists n. by apply gen_all_check_header_Ok.
Qed.

(** C4. Both validators of the report-card header, the one of
    [gen_black_ribbons.read_data] and the one of
    [gen_all.validate_black_ribbon_file], accept a header exactly when it is
    the 8 lead names, then [n] blocks of the 6 meet names prefixed
    ["Meet1-"] to ["Meetn-"], then the 5 tail names, for some [n] that is at
    least 1; the [n] they return is (number of columns - 13) / 6; a header
    for which that division leaves a remainder or gives less than 1 is
    rejected: [read_data] prints its message and exits with status 1, the
    discovery scan returns [None]. *)
Theorem report_card_header_validation header :
  (∀ n, check_header header = Ok n ↔ 1 ≤ n ∧ header = report_card_header n)
  ∧ (∀ n, gen_all.check_header header = Ok n
          ↔ 1 ≤ n ∧ header = report_card_header n)
  ∧ (∀ n, check_header header = Ok n ∨ gen_all.check_header header = Ok n →
          Z.of_nat n = inferred_meets header ∧ inferred_extra header = 0%Z)
  ∧ (inferred_extra header ≠ 0%Z ∨ (inferred_meets header < 1)%Z →
       ∀ src lines p t,
         (∃ e, check_header header = Raise e)
         ∧ (∃ e, gen_all.check_header header = Raise e)
         ∧ exit_status (read_data src (header :: lines)) = 1%Z
         ∧ gen_all.validate_black_ribbon_file
             (gen_all.File p (Some (header :: lines)) t) = None).
Proof.
  split; [intros n; apply check_header_Ok|].
  split; [intros n; apply gen_all_check_header_Ok|].
  assert (Hinf : ∀ n, 1 ≤ n ∧ header = report_card_header n →
                 Z.of_nat n = inferred_meets header ∧ inferred_extra header = 0%Z).
  { intros n [_ ->]. by destruct (inferred_of_header n) as [-> ->]. }
  split.
  { intros n [H%check_header_Ok|H%gen_all_check_header_Ok]; by apply Hinf. }
  intros Hbad src lines p t.
  assert (Hno : ¬ ∃ n, 1 ≤ n ∧ header = report_card_header n).
  { intros (n & Hn). destruct (Hinf n Hn) as [Hm Hx]. lia. }
  split; [|split].
  - destruct (check_header header) as [n|e] eqn:Hc; [|by eexists].
    destruct Hno. exists n. by apply check_header_Ok.
  - destruct (gen_all.check_header header) as [n|e] eqn:Hc; [|by eexists].
    destruct Hno. exists n. by apply gen_all_check_header_Ok.
  - destruct (rejected_header header src lines p t Hno) as [[msg ->] ->]. done.
Qed.

Lemma report_card_header_validation_witness :
  check_header (report_card_header 2) = Ok 2
  ∧ gen_all.check_header (report_card_header 2) = Ok 2
  ∧ (∃ e, check_header (LeadColumns ++ ["Meet1-Name"; "Meet1-Result"] ++ TailColumns)
          = Raise e)
  ∧ exit_status
      (read_data "rc.csv" [LeadColumns ++ ["Meet1-Name"; "Meet1-Result"] ++ TailColumns])
    = 1%Z.
Proof.
  pose proof (report_card_header_validation (report_card_header 2))
    as (Hok & Hok' & _).
  split; [apply Hok; split; [lia|reflexivity]|].
  split; [apply Hok'; split; [lia|reflexivity]|].
  pose proof (report_card_header_validation
                (LeadColumns ++ ["Meet1-Name"; "Meet1-Result"] ++ TailColumns))
    as (_ & _ & _ & Hbad).
  destruct (Hbad ltac:(left; vm_compute; discriminate) "rc.csv" [] "" 0%Q)
    as (He & _ & Hx & _).
  split; [exact He|exact Hx].
Defined.

End ReportCardHeader.

(** ** The order of the swimmers of an event *)

Section SwimmerOrder.

Import gen_best_times.

(** The elapsed time of a result. *)
Definition time_of (e : entry) : Q := e.1.2.

(** The results of [l] whose time is exactly [t], in the order of [l]. *)
Definition tied (t : Q) (l : list entry) : list entry :=
  filter (λ e, Qeq_bool (time_of e) t = true) l.

Definition faster_or_tied (a b : entry) : Prop := (time_of a <= time_of b)%Q.

Section Insertion.

Context {A : Type} (key : A → Q).
Implicit Types (a b : A) (l : list A).

Lemma insert_by_Permutation a l : insert_by key a l ≡ₚ a :: l.
Proof.
  induction l as [|b l IH]; cbn; [done|].
  destruct (Qle_bool (key a) (key b)); [done|].
  rewrite IH. apply perm_swap.
Qed.

Lemma sorted_Permutation l : sorted key l ≡ₚ l.
Proof.
  induction l as [|a l IH]; cbn; [done|].
  by rewrite insert_by_Permutation, IH.
Qed.

Lemma insert_by_StronglySorted a l :
  StronglySorted (λ x y, (key x <= key y)%Q) l →
  StronglySorted (λ x y, (key x <= key y)%Q) (insert_by key a l).
Proof.
  induction 1 as [|b l Hl IH Hb]; cbn; [repeat constructor|].
  destruct (Qle_bool (key a) (key b)) eqn:Hab.
  - apply Qle_bool_iff in Hab. constructor; [by constructor|].
    constructor; [done|]. eapply Forall_impl; [exact Hb|].
    intros c Hc. by apply Qle_trans with (key b).
  - constructor; [done|]. rewrite insert_by_Permutation.
    constructor; [|done]. apply Qlt_le_weak, Qnot_le_lt.
    intros ?%Qle_bool_iff. congruence.
Qed.

Lemma sorted_StronglySorted l :
  StronglySorted (λ x y, (key x <= key y)%Q) (sorted key l).
Proof.
  induction l as [|a l IH]; cbn; [constructor|].
  by apply insert_by_StronglySorted.
Qed.

(** Inserting [a] moves it past strictly smaller keys only. *)
Lemma insert_by_tied t a l :
  filter (λ x, Qeq_bool (key x) t = true) (insert_by key a l)
  = filter (λ x, Qeq_bool (key x) t = true) (a :: l).
Proof.
  induction l as [|b l IH]; cbn [insert_by]; [done|].
  destruct (Qle_bool (key a) (key b)) eqn:Hab; [done|].
  rewrite filter_cons, IH, !filter_cons.
  destruct (decide (Qeq_bool (key b) t = true)) as [Hb|Hb];
    destruct (decide (Qeq_bool (key a) t = true)) as [Ha|Ha]; try done.
  apply Qeq_bool_iff in Ha, Hb.
  assert (Qle_bool (key a) (key b) = true); [|congruence].
  apply Qle_bool_iff. rewrite Ha, Hb. apply Qle_refl.
Qed.

Lemma sorted_tied t l :
  filter (λ x, Qeq_bool (key x) t = true) (sorted key l)
  = filter (λ x, Qeq_bool (key x) t = true) l.
Proof.
  induction l as [|a l IH]; cbn [sorted foldr]; [done|].
  fold (sorted key l). by rewrite insert_by_tied, !filter_cons, IH.
Qed.

End Insertion.

(** C7. The swimmers of an event, as [gen_unformatted_swimmers] lists them,
    are the results of the event in another order, no time before a smaller
    one, and the results with exactly the same time keep the order they
    have in the input. *)
Theorem gen_unformatted_swimmers_stable (data : list entry) :
  gen_unformatted_swimmers data ≡ₚ data
  ∧ StronglySorted faster_or_tied (gen_unformatted_swimmers data)
  ∧ ∀ t, tied t (gen_unformatted_swimmers data) = tied t data.
Proof.
  split; [apply sorted_Permutation|].
  split; [apply (sorted_StronglySorted (λ x : entry, x.1.2))|].
  intros t. apply (sorted_tied (λ x : entry, x.1.2)).
Qed.

Example gen_unformatted_swimmers_ties :
  gen_unformatted_swimmers
    [ ("Ann Doe (9)", 35.40, "06/01"); ("Bea Roe (10)", 33.10, "06/08");
      ("Cat Poe (9)", 35.40, "06/08"); ("Dee Low (10)", 33.10, "06/01") ]%Q
  = [ ("Bea Roe (10)", 33.10, "06/08"); ("Dee Low (10)", 33.10, "06/01");
      ("Ann Doe (9)", 35.40, "06/01"); ("Cat Poe (9)", 35.40, "06/08") ]%Q.
Proof. reflexivity. Qed.

(** Every event of the outline lists its swimmers in that order. *)
Lemma gen_unformatted_events_sorted (data : gmap string (list entry)) e swimmers :
  (e, swimmers) ∈ gen_unformatted_events data →
  ∃ results, data !! e = Some results
    ∧ swimmers = gen_unformatted_swimmers results.
Proof.
  unfold gen_unformatted_events. rewrite list_elem_of_bind.
  intros (e' & Hin & _). destruct (data !! e') as [results|] eqn:He;
    [|by apply elem_of_nil in Hin].
  apply list_elem_of_singleton in Hin as [= -> ->]. eauto.
Qed.

End SwimmerOrder.

(** ** The best-times parser and the outline of the report *)

Section BestTimes.

Import gen_best_times.

(** The events registered for an age group: [_AgeEvents[ag]]. *)
Definition registered (ag : string) : list string := _AgeEvents !!! ag.

(** What a well-formed row contributes: its age group, its event and its
    result [(swimmer, time, date)]. *)
Definition parse_line (line : list string) : option (string * string * entry) :=
  match line with
  | [age_group; first_name; last_name; age; event; _; _; time; date; _] =>
      match int time with
      | Ok t =>
          Some (age_group, event,
                (first_name +:+ " " +:+ last_name +:+ " (" +:+ age +:+ ")",
                 (inject_Z t / 100)%Q, date))
      | Raise _ => None
      end
  | _ => None
  end.

(** The results of the rows of an age group and event, in the order of the
    rows. *)
Definition results_for (lines : list (list string)) (ag ev : string)
    : list entry :=
  omap (λ line,
          match parse_line line with
          | Some (ag', ev', e) =>
              if decide (ag' = ag ∧ ev' = ev) then Some e else None
          | None => None
          end) lines.

(** Some row of [lines] is a result of age group [ag] in event [ev]. *)
Definition has_result (lines : list (list string)) (ag ev : string) : Prop :=
  ∃ first_name last_name age c5 c6 time date c9,
    [ag; first_name; last_name; age; ev; c5; c6; time; date; c9] ∈ lines.

(** The outline has a header for event [ev] under age group [ag]. *)
Definition has_header (report : outline) (ag ev : string) : Prop :=
  ∃ events swimmers, (ag, events) ∈ report ∧ (ev, swimmers) ∈ events.

Definition swim_up_notice (ev ag : string) : string :=
  "Swim up is adding " +:+ ev +:+ " to " +:+ ag.

Lemma lookup_list_to_map_fmap {V} (f : string → V) (l : list string) k :
  list_to_map (M := gmap string V) ((λ a, (a, f a)) <$> l) !! k
  = if decide (k ∈ l) then Some (f k) else None.
Proof.
  induction l as [|a l IH]; cbn [fmap list_fmap list_to_map foldr].
  - rewrite lookup_empty. by rewrite decide_False by apply not_elem_of_nil.
  - cbn. rewrite lookup_insert. destruct (decide (a = k)) as [->|Hne].
    + by rewrite decide_True by left.
    + rewrite IH. destruct (decide (k ∈ l)) as [Hin|Hnin].
      * rewrite decide_True; [done|by right].
      * rewrite decide_False; [done|]. intros [->|?]%elem_of_cons; done.
Qed.

Lemma initial_data_lookup ag :
  initial_data !! ag
  = if decide (ag ∈ _AgeGroups)
    then Some (list_to_map ((λ e, (e, [])) <$> registered ag))
    else None.
Proof.
  unfold initial_data.
  apply (lookup_list_to_map_fmap
           (λ ag, list_to_map ((λ e, (e, [])) <$> _AgeEvents !!! ag))).
Qed.

(** The state of the loop of [read_data] after the rows [done]: what has
    been printed and the dictionary. *)
Record parsed (out : list string) (data : dataset) (done : list (list string))
    : Prop := Parsed {
  parsed_unknown : ∀ ag, ag ∉ _AgeGroups → data !! ag = None;
  parsed_known : ∀ ag, ag ∈ _AgeGroups →
    ∃ events, data !! ag = Some events ∧
      ∀ ev,
        (events !! ev = None ∧ (ev ∉ registered ag) ∧ results_for done ag ev = [])
        ∨ (events !! ev = Some (results_for done ag ev)
           ∧ (ev ∈ registered ag
              ∨ (results_for done ag ev ≠ [] ∧ swim_up_notice ev ag ∈ out)));
  parsed_rows : ∀ line, line ∈ done →
    ∃ ag ev e, parse_line line = Some (ag, ev, e) ∧ ag ∈ _AgeGroups;
}.

Lemma parsed_initial : parsed [] initial_data [].
Proof.
  split.
  - intros ag Hag. by rewrite initial_data_lookup, decide_False.
  - intros ag Hag. rewrite initial_data_lookup, decide_True by done.
    eexists. split; [done|]. intros ev.
    rewrite (lookup_list_to_map_fmap (λ _, [])).
    destruct (decide (ev ∈ registered ag)); [right|left]; by auto.
  - by intros line ?%elem_of_nil.
Qed.

Lemma results_for_snoc lines line ag ev :
  results_for (lines ++ [line]) ag ev
  = results_for lines ag ev
    ++ match parse_line line with
       | Some (ag', ev', e) => if decide (ag' = ag ∧ ev' = ev) then [e] else []
       | None => []
       end.
Proof.
  unfold results_for. rewrite omap_app. f_equal. cbn.
  destruct (parse_line line) as [[[ag' ev'] e]|]; [|done].
  by destruct (decide _).
Qed.

Lemma io_bind_Ok {A B} (m : io A) (k : A → io B) out b :
  io_bind m k = IO out (Ok b) →
  ∃ o1 a o2, m = IO o1 (Ok a) ∧ k a = IO o2 (Ok b) ∧ out = o1 ++ o2.
Proof.
  destruct m as [o1 [a|e]]; cbn; [|done].
  destruct (k a) as [o2 r] eqn:Hk. intros [= <- ->]. by exists o1, a, o2.
Qed.

Lemma add_line_parsed out data done line out' data' :
  parsed out data done →
  add_line data line = IO out' (Ok data') →
  parsed (out ++ out') data' (done ++ [line]).
Proof.
  intros [Hunknown Hknown Hrows] Hadd.
  destruct line as [|ag [|fn [|ln [|age [|ev [|c5 [|c6 [|t [|date [|c9 [|]]]]]]]]]]];
    try discriminate Hadd.
  unfold add_line in Hadd.
  apply io_bind_Ok in Hadd as (o1 & u & o2 & Hassert & Hadd & ->).
  unfold lift, assert in Hassert. case_bool_decide as Hag; [|done].
  injection Hassert as <-.
  apply io_bind_Ok in Hadd as (o1 & time & o3 & Htime & Hadd & ->).
  unfold lift in Htime. destruct (int t) as [z|] eqn:Hz; [|done].
  cbn in Htime. injection Htime as <- <-.
  destruct (Hknown ag Hag) as (events & Hdata & Hevents). rewrite Hdata in Hadd.
  apply io_bind_Ok in Hadd as (o1 & events' & o4 & Hev & Hadd & ->).
  injection Hadd as <- <-. cbn [app]. rewrite app_nil_r.
  set (e := (fn +:+ " " +:+ ln +:+ " (" +:+ age +:+ ")", (inject_Z z / 100)%Q, date)).
  set (line := [ag; fn; ln; age; ev; c5; c6; t; date; c9]).
  assert (Hline : parse_line line = Some (ag, ev, e)) by (cbn; by rewrite Hz).
  assert (Hev' : events' = <[ev := results_for done ag ev]> events
                 ∧ (ev ∈ registered ag ∨ swim_up_notice ev ag ∈ out ++ o1)).
  { destruct (Hevents ev) as [(Hnone & Hreg & Hres)|(Hsome & Hreg)].
    - rewrite Hnone in Hev. cbn in Hev. injection Hev as <- <-.
      rewrite Hres. split; [done|]. right. apply elem_of_app. right. left.
    - rewrite Hsome in Hev. injection Hev as <- <-.
      split; [by rewrite insert_id|].
      destruct Hreg as [?|[_ ?]]; [by left|right]. apply elem_of_app. by left. }
  destruct Hev' as [-> Hnotice]. rewrite lookup_total_insert_eq.
  split.
  - intros ag' Hag'. rewrite lookup_insert_ne by congruence. by apply Hunknown.
  - intros ag' Hag'. destruct (decide (ag' = ag)) as [->|Hne].
    + rewrite lookup_insert_eq. eexists. split; [done|]. intros ev'.
      rewrite results_for_snoc, Hline.
      destruct (decide (ev' = ev)) as [->|Hne'].
      * right. rewrite lookup_insert_eq, decide_True by done. split; [done|].
        destruct Hnotice as [?|?]; [by left|right]. split; [|done].
        by intros [_ [=]]%app_eq_nil.
      * rewrite !lookup_insert_ne by done.
        rewrite decide_False, app_nil_r by (intros [_ ?]; congruence).
        destruct (Hevents ev') as [?|(? & Hreg)]; [by left|right].
        split; [done|]. destruct Hreg as [?|[? ?]]; [by left|right].
        split; [done|]. apply elem_of_app. by left.
    + rewrite lookup_insert_ne by done.
      destruct (Hknown ag' Hag') as (events' & Hdata' & Hevents').
      exists events'. split; [done|]. intros ev'.
      rewrite results_for_snoc, Hline.
      rewrite decide_False, app_nil_r by (intros [? _]; congruence).
      destruct (Hevents' ev') as [?|(? & Hreg)]; [by left|right].
      split; [done|]. destruct Hreg as [?|[? ?]]; [by left|right].
      split; [done|]. apply elem_of_app. by left.
  - intros l [Hl | ->%list_elem_of_singleton]%elem_of_app; [by apply Hrows|].
    by exists ag, ev, e.
Qed.

Lemma add_lines_parsed lines out data done out' data' :
  parsed out data done →
  add_lines data lines = IO out' (Ok data') →
  parsed (out ++ out') data' (done ++ lines).
Proof.
  revert out data done out'. induction lines as [|line lines IH];
    intros out data done out' Hinv Hadd.
  - injection Hadd as <- <-. by rewrite !app_nil_r.
  - cbn in Hadd. apply io_bind_Ok in Hadd as (o1 & data1 & o2 & Hline & Hadd & ->).
    rewrite (assoc_L (++) out), (cons_middle line), (assoc_L (++) done).
    eapply IH; [|done]. by eapply add_line_parsed.
Qed.

(** What [read_data] returns when it returns. *)
Lemma read_data_parsed src rows out data :
  read_data src rows = IO out (Ok data) →
  ∃ lines, rows = ExpectedColumns :: lines ∧ parsed out data lines.
Proof.
  unfold read_data. destruct rows as [|header lines]; [done|].
  intros (o1 & header' & o2 & Hh & Hadd & ->)%io_bind_Ok.
  injection Hh as <- <-. cbn [app drop] in *.
  destruct (check_header header) as [[]|e] eqn:Hc.
  2:{ apply io_bind_Ok in Hadd as (? & ? & ? & _ & [=] & _). }
  exists lines. split.
  - f_equal. unfold check_header, assert in Hc.
    case_bool_decide as Hlen; [|done]. cbn [bind] in Hc.
    by apply (check_columns_eq 0) in Hc.
  - by apply (add_lines_parsed lines [] initial_data [] o2 data parsed_initial).
Qed.

Lemma elem_of_gen_unformatted_events (d : gmap string (list entry)) ev swimmers :
  (ev, swimmers) ∈ gen_unformatted_events d
  ↔ ev ∈ _AllEvents
    ∧ ∃ rs, d !! ev = Some rs ∧ swimmers = gen_unformatted_swimmers rs.
Proof.
  unfold gen_unformatted_events. rewrite list_elem_of_bind. split.
  - intros (ev' & Hin & Hev'). destruct (d !! ev') as [rs|] eqn:Hd;
      [|by apply elem_of_nil in Hin].
    apply list_elem_of_singleton in Hin as [= -> ->]. eauto.
  - intros (Hev & rs & Hd & ->). exists ev. rewrite Hd. split; [left|done].
Qed.

Lemma gen_unformatted_report_parsed out data lines :
  parsed out data lines →
  gen_unformatted_report data
  = Ok ((λ ag, (ag, gen_unformatted_events (default ∅ (data !! ag))))
          <$> _AgeGroups).
Proof.
  intros Hinv. unfold gen_unformatted_report. apply traverse_fmap.
  intros ag Hag. by destruct (parsed_known _ _ _ Hinv ag Hag) as (events & -> & _).
Qed.

Lemma results_for_has_result out data lines ag ev :
  parsed out data lines →
  results_for lines ag ev ≠ [] ↔ has_result lines ag ev.
Proof.
  intros Hinv. split.
  - destruct (results_for lines ag ev) as [|e rs] eqn:Hres; [done|]. intros _.
    assert (e ∈ results_for lines ag ev) as Hin by (rewrite Hres; left).
    apply list_elem_of_omap in Hin as (line & Hline & He).
    destruct line as [|ag' [|fn [|ln [|age [|ev' [|c5 [|c6 [|t [|date [|c9 [|]]]]]]]]]]];
      try discriminate He.
    cbn in He. destruct (int t); [|done]. case_decide as Heq; [|done].
    destruct Heq as [-> ->]. by exists fn, ln, age, c5, c6, t, date, c9.
  - intros (fn & ln & age & c5 & c6 & t & date & c9 & Hline).
    destruct (parsed_rows _ _ _ Hinv _ Hline) as (ag' & ev' & e & Hparse & _).
    assert (e ∈ results_for lines ag ev) as Hin; [|by intros Hnil; rewrite Hnil in Hin; apply elem_of_nil in Hin].
    apply list_elem_of_omap. eexists. split; [done|]. rewrite Hparse.
    cbn in Hparse. destruct (int t); [|done]. injection Hparse as <- <- _.
    by rewrite decide_True.
Qed.

(** The claim of the specification: a header exactly for the pairs that
    have a result. *)
Definition headers_only_for_results : Prop :=
  ∀ src rows out data report ag ev,
    read_data src rows = IO out (Ok data) →
    gen_unformatted_report data = Ok report →
    has_header report ag ev ↔ has_result (drop 1 rows) ag ev.

(** A best-times file with a header and no rows gives a report with the
    header of every registered event of every age group. *)
Lemma header_without_results : ¬ headers_only_for_results.
Proof.
  intros Hclaim.
  assert (has_result (drop 1 [ExpectedColumns]) "Girls 8 & Under" "25 Freestyle")
    as (? & ? & ? & ? & ? & ? & ? & ? & Hin); [|by apply elem_of_nil in Hin].
  eapply (Hclaim "best_times.csv" [ExpectedColumns]); [reflexivity| |].
  - vm_compute. reflexivity.
  - eexists _, _. split; left.
Qed.

(** C3, amended. For a best-times file that [read_data] accepts, the outline
    of the report has a header for an age group and an event of the
    canonical list of events exactly when the age group is one of the ten
    and the event is registered for it or has at least one result row for
    it: every age group appears with its registered events, with or without
    results, and no other event of the list appears without a result. *)
Theorem report_headers src rows out data :
  read_data src rows = IO out (Ok data) →
  ∃ report, gen_unformatted_report data = Ok report
    ∧ ∀ ag ev, ev ∈ _AllEvents →
        (has_header report ag ev
         ↔ ag ∈ _AgeGroups
           ∧ (ev ∈ registered ag ∨ has_result (drop 1 rows) ag ev)).
Proof.
  intros (lines & -> & Hinv)%read_data_parsed. cbn [drop].
  eexists. split; [by eapply gen_unformatted_report_parsed|].
  intros ag ev Hev. unfold has_header.
  setoid_rewrite list_elem_of_fmap. split.
  - intros (events & swimmers & (ag' & [= <- ->] & Hag) & Hin).
    split; [done|]. apply elem_of_gen_unformatted_events in Hin as (_ & rs & Hrs & _).
    destruct (parsed_known _ _ _ Hinv ag Hag) as (events & Hdata & Hevents).
    rewrite Hdata in Hrs. cbn in Hrs.
    destruct (Hevents ev) as [(Hnone & _)|(_ & [?|[Hne _]])]; [congruence|by left|].
    right. by eapply results_for_has_result.
  - intros (Hag & Hreg).
    destruct (parsed_known _ _ _ Hinv ag Hag) as (events & Hdata & Hevents).
    exists (gen_unformatted_events events),
      (gen_unformatted_swimmers (results_for lines ag ev)).
    split; [exists ag; by rewrite Hdata|].
    apply elem_of_gen_unformatted_events. split; [done|]. eexists. split; [|done].
    destruct (Hevents ev) as [(_ & Hnreg & Hnil)|(Hsome & _)]; [|done].
    destruct Hreg as [?|Hres]; [done|].
    eapply results_for_has_result in Hres; [|done]. done.
Qed.

End BestTimes.

Section BestTimesSample.

Import gen_best_times.

Definition sample_best_times : list (list string) :=
  [ ExpectedColumns;
    ["Girls 9-10"; "Ann"; "Doe"; "9"; "50 Freestyle"; "35.40"; "35.40"; "3540";
     "06/01"; "Time Trials"];
    ["Girls 9-10"; "Bea"; "Roe"; "10"; "50 Backstroke"; "41.02"; "41.02"; "4102";
     "06/08"; "A Meet"] ].

Lemma report_headers_witness :
  ∃ out data,
    read_data "best_times.csv" sample_best_times = IO out (Ok data)
    ∧ ∃ report, gen_unformatted_report data = Ok report
        ∧ ∀ ag ev, ev ∈ _AllEvents →
            (has_header report ag ev
             ↔ ag ∈ _AgeGroups
               ∧ (ev ∈ registered ag
                  ∨ has_result (drop 1 sample_best_times) ag ev)).
Proof.
  eexists _, _. split; [reflexivity|].
  eapply (report_headers "best_times.csv" sample_best_times).
  reflexivity.
Defined.

End BestTimesSample.

(** ** Rows the best-times parser refuses, and rows it takes in *)

Section BestTimesRows.

Import gen_best_times.

Variable get_string_width : font → string → Q.

Abbreviation main := (main get_string_width).

Definition unrecognized (ag : string) : string :=
  "Unrecognized age group in data: " +:+ ag.

(** An exception that ends the run with a traceback and exit status 1. *)
Definition uncaught (e : exn) : Prop :=
  match e with
  | SystemExit _ => False
  | _ => True
  end.

Lemma io_bind_Raise {A B} (m : io A) (k : A → io B) out e :
  io_bind m k = IO out (Raise e) →
  m = IO out (Raise e)
  ∨ ∃ o1 a o2, m = IO o1 (Ok a) ∧ k a = IO o2 (Raise e) ∧ out = o1 ++ o2.
Proof.
  destruct m as [o1 [a|e']]; cbn.
  - destruct (k a) as [o2 r] eqn:Hk. intros [= <- ->]. right. by exists o1, a, o2.
  - intros [= <- <-]. by left.
Qed.

Lemma io_bind_Raise_l {A B} (m : io A) (k : A → io B) out e :
  m = IO out (Raise e) → io_bind m k = IO out (Raise e).
Proof. by intros ->. Qed.

Lemma io_bind_Ok_l {A B} (m : io A) (k : A → io B) o1 a :
  m = IO o1 (Ok a) →
  io_bind m k = IO (o1 ++ output (k a)) (outcome (k a)).
Proof. intros ->. cbn. by destruct (k a). Qed.

Lemma int_Raise t e : int t = Raise e → e = ValueError.
Proof. unfold int. destruct (signed _ _ _); by intros [=]. Qed.

Lemma add_line_uncaught data line out e :
  add_line data line = IO out (Raise e) → uncaught e.
Proof.
  destruct line as [|ag [|fn [|ln [|age [|ev [|c5 [|c6 [|t [|date [|c9 [|]]]]]]]]]]];
    try by intros [= <- <-].
  unfold add_line, lift, assert. case_bool_decide; [|by intros [= <- <-]].
  destruct (int t) as [z|e'] eqn:Hz.
  2:{ apply int_Raise in Hz as ->. by intros [= <- <-]. }
  cbn. destruct (data !! ag) as [events|]; [|by intros [= <- <-]].
  destruct (events !! ev); cbn; by intros [=].
Qed.

Lemma add_lines_uncaught lines data out e :
  add_lines data lines = IO out (Raise e) → uncaught e.
Proof.
  revert data out. induction lines as [|line lines IH]; intros data out; [done|].
  cbn [add_lines]. intros [Hline|(o1 & d & o2 & _ & Hrest & _)]%io_bind_Raise.
  - by eapply add_line_uncaught.
  - by eapply IH.
Qed.

Lemma add_lines_app data l1 l2 :
  add_lines data (l1 ++ l2) = io_bind (add_lines data l1) (λ d, add_lines d l2).
Proof.
  revert data. induction l1 as [|line l1 IH]; intros data; cbn [app add_lines].
  - unfold ret, io_bind. by destruct (add_lines data l2).
  - destruct (add_line data line) as [o [d|e]]; unfold io_bind at 1 3; [|done].
    rewrite IH. destruct (add_lines d l1) as [o1 [d1|e1]]; unfold io_bind; [|done].
    destruct (add_lines d1 l2) as [o2 r2]. by rewrite (assoc_L (++)).
Qed.

(** A file with the ten columns is read by the loop over its rows. *)
Lemma read_data_lines src lines :
  read_data src (ExpectedColumns :: lines) = add_lines initial_data lines.
Proof.
  unfold read_data.
  change (take 1 (ExpectedColumns :: lines)) with [ExpectedColumns].
  change (index [ExpectedColumns] 0) with (Ok ExpectedColumns).
  change (drop 1 (ExpectedColumns :: lines)) with lines.
  unfold lift, io_bind. change (check_header ExpectedColumns) with (Ok tt).
  cbv beta iota. by destruct (add_lines initial_data lines).
Qed.

Lemma main_Raise src rows out e :
  read_data src rows = IO out (Raise e) → main src rows = IO out (Raise e).
Proof. intros Hread. unfold gen_best_times.main. by rewrite Hread. Qed.

Lemma add_line_unrecognized data ag fn ln age ev c5 c6 t date c9 :
  ag ∉ _AgeGroups →
  add_line data [ag; fn; ln; age; ev; c5; c6; t; date; c9]
  = IO [] (Raise (AssertionError (unrecognized ag))).
Proof. intros Hag. unfold add_line. by rewrite bool_decide_eq_false_2. Qed.

(** A row of a known age group with a numeral in its time column is taken
    in, whatever its event. *)
Lemma add_line_accepted out data done ag fn ln age ev c5 c6 t date c9 z :
  parsed out data done → ag ∈ _AgeGroups → int t = Ok z →
  ∃ o data', add_line data [ag; fn; ln; age; ev; c5; c6; t; date; c9]
             = IO o (Ok data').
Proof.
  intros Hinv Hag Hz. unfold add_line.
  rewrite bool_decide_eq_true_2, Hz by done.
  destruct (parsed_known _ _ _ Hinv ag Hag) as (events & Hdata & _).
  cbn. rewrite Hdata. destruct (events !! ev); cbn; by eexists _, _.
Qed.

(** C9. In the best-times parser a row whose age group is not one of the
    ten ends the run: [main] stops with an exception, exit status 1 and no
    document, wherever the row is; when the rows before it are taken in, the
    exception is the failed assertion whose message names the age group.
    A row of a known age group whose event is not registered for it is taken
    in: after a run that returns, the result of every row is in the data
    under its age group and event, and the notice for every event that was
    not registered has been printed. *)
Theorem best_times_rows src :
  (∀ lines ag fn ln age ev c5 c6 t date c9,
     [ag; fn; ln; age; ev; c5; c6; t; date; c9] ∈ lines → ag ∉ _AgeGroups →
     ∃ out e, main src (ExpectedColumns :: lines) = IO out (Raise e)
       ∧ exit_status (main src (ExpectedColumns :: lines)) = 1%Z)
  ∧ (∀ pre post out d ag fn ln age ev c5 c6 t date c9,
       add_lines initial_data pre = IO out (Ok d) → ag ∉ _AgeGroups →
       let rows := ExpectedColumns
                   :: pre ++ [ag; fn; ln; age; ev; c5; c6; t; date; c9] :: post in
       main src rows = IO out (Raise (AssertionError (unrecognized ag)))
       ∧ exit_status (main src rows) = 1%Z
       ∧ traceback (main src rows) = Some ("AssertionError: " +:+ unrecognized ag))
  ∧ (∀ out data done ag fn ln age ev c5 c6 t date c9 z,
       parsed out data done → ag ∈ _AgeGroups → int t = Ok z →
       ∃ o data', add_line data [ag; fn; ln; age; ev; c5; c6; t; date; c9]
                  = IO o (Ok data'))
  ∧ (∀ rows out data,
       read_data src rows = IO out (Ok data) →
       ∀ line, line ∈ drop 1 rows →
         ∃ ag ev e, parse_line line = Some (ag, ev, e)
           ∧ (∃ events rs, data !! ag = Some events ∧ events !! ev = Some rs
                ∧ e ∈ rs)
           ∧ (ev ∉ registered ag → swim_up_notice ev ag ∈ out)).
Proof.
  split; [|split; [|split]].
  - intros lines ag fn ln age ev c5 c6 t date c9 Hin Hag.
    destruct (read_data src (ExpectedColumns :: lines)) as [out [data|e]] eqn:Hread.
    + apply read_data_parsed in Hread as (lines' & [= <-] & Hinv).
      destruct (parsed_rows _ _ _ Hinv _ Hin) as (ag' & ev' & e' & Hparse & Hag').
      cbn in Hparse. destruct (int t); [|done]. by injection Hparse as <- _ _.
    + exists out, e. rewrite (main_Raise _ _ _ _ Hread). split; [done|].
      rewrite read_data_lines in Hread. apply add_lines_uncaught in Hread.
      by destruct e.
  - intros pre post out d ag fn ln age ev c5 c6 t date c9 Hpre Hag rows.
    assert (main src rows = IO out (Raise (AssertionError (unrecognized ag)))) as ->.
    { apply main_Raise. subst rows. rewrite read_data_lines, add_lines_app, Hpre.
      cbn [io_bind add_lines]. rewrite add_line_unrecognized by done. cbn.
      by rewrite app_nil_r. }
    done.
  - intros *. apply add_line_accepted.
  - intros rows out data (lines & -> & Hinv)%read_data_parsed line Hline.
    cbn [drop] in Hline.
    destruct (parsed_rows _ _ _ Hinv _ Hline) as (ag & ev & e & Hparse & Hag).
    exists ag, ev, e. split; [done|].
    assert (e ∈ results_for lines ag ev) as He.
    { apply list_elem_of_omap. exists line. split; [done|].
      by rewrite Hparse, decide_True. }
    destruct (parsed_known _ _ _ Hinv ag Hag) as (events & Hdata & Hevents).
    destruct (Hevents ev) as [(_ & _ & Hnil)|(Hsome & Hreg)].
    { rewrite Hnil in He. by apply elem_of_nil in He. }
    split; [by eauto|]. intros Hnreg. by destruct Hreg as [?|[_ ?]].
Qed.

End BestTimesRows.

Section BestTimesRowsSample.

Import gen_best_times.

Definition swim_up_rows : list (list string) :=
  [ ["Girls 9-10"; "Ann"; "Doe"; "9"; "50 Backstroke"; "41.02"; "41.02"; "4102";
     "06/08"; "A Meet"] ].

Definition unknown_group_row : list string :=
  ["Girls 9-11"; "Bea"; "Roe"; "10"; "50 Freestyle"; "35.40"; "35.40"; "3540";
   "06/01"; "Time Trials"].

Lemma best_times_rows_witness :
  let width (f : font) (s : string) := 20%Q in
  (main width "bt.csv" (ExpectedColumns :: swim_up_rows ++ unknown_group_row :: [])
   = IO ["Swim up is adding 50 Backstroke to Girls 9-10"]
        (Raise (AssertionError "Unrecognized age group in data: Girls 9-11")))
  ∧ ∃ out data,
      read_data "bt.csv" (ExpectedColumns :: swim_up_rows) = IO out (Ok data)
      ∧ ∀ line, line ∈ swim_up_rows →
          ∃ ag ev e, parse_line line = Some (ag, ev, e)
            ∧ (∃ events rs, data !! ag = Some events ∧ events !! ev = Some rs
                 ∧ e ∈ rs)
            ∧ (ev ∉ registered ag → swim_up_notice ev ag ∈ out).
Proof.
  intros width.
  pose proof (best_times_rows width "bt.csv") as (_ & Hfatal & _ & Hkept).
  split.
  - refine (proj1 (Hfatal swim_up_rows [] _ _ "Girls 9-11" "Bea" "Roe" "10"
                     "50 Freestyle" "35.40" "35.40" "3540" "06/01" "Time Trials"
                     _ _)).
    + reflexivity.
    + intros Hin. repeat (apply elem_of_cons in Hin as [[=]|Hin]).
      by apply elem_of_nil in Hin.
  - eexists _, _. split; [reflexivity|].
    apply (Hkept (ExpectedColumns :: swim_up_rows)). reflexivity.
Defined.

End BestTimesRowsSample.

(** ** Discovery of the input files *)

Section Discovery.

Import gen_all.

(** [k] is the greatest meet index of the dictionary [meets]. *)
Definition highest (meets : gmap nat string) (k : nat) : Prop :=
  is_Some (meets !! k) ∧ ∀ j, is_Some (meets !! j) → j ≤ k.

(** [f] is a candidate report card with the meet directory [meets]: it is
    not a best-times file, the scan accepts it, and the directory is not
    empty. *)
Definition candidate (f : file) (meets : gmap nat string) : Prop :=
  is_best_times_file f = false
  ∧ validate_black_ribbon_file f = Some meets
  ∧ meets ≠ ∅.

(** The files the loop does something with. *)
Definition is_candidate (f : file) : bool :=
  match validate_black_ribbon_file f with
  | Some meets => bool_decide (meets ≠ ∅)
  | None => false
  end.
Definition relevant (f : file) : bool :=
  is_best_times_file f || is_candidate f.

Lemma highest_fun meets k k' : highest meets k → highest meets k' → k = k'.
Proof. intros [Hk Hmax] [Hk' Hmax']. apply Nat.le_antisymm; auto. Qed.

Lemma max_key_highest (meets : gmap nat string) :
  meets ≠ ∅ → ∃ k, max_key (Some meets) = Ok k ∧ highest meets k.
Proof.
  intros Hne. unfold max_key.
  assert (Hkeys : ∀ j, j ∈ (map_to_list meets).*1 ↔ is_Some (meets !! j)).
  { intros j. rewrite list_elem_of_fmap. split.
    - intros ([j' v] & -> & Hin%elem_of_map_to_list). by exists v.
    - intros [v Hv]. exists (j, v). split; [done|]. by apply elem_of_map_to_list. }
  destruct ((map_to_list meets).*1) as [|k ks] eqn:Hl.
  { destruct Hne. apply map_to_list_empty_iff.
    by destruct (map_to_list meets). }
  destruct (max_spec k ks) as [Hin Hmax].
  exists (Py.max k ks). split; [done|]. split; [by apply Hkeys|].
  intros j Hj. by apply Hmax, Hkeys.
Qed.

(** What the loop has established after the files [seen]. *)
Record discovered (seen : list file) (st : selection) : Prop := Discovered {
  bt_bound : ∀ g, g ∈ seen → is_best_times_file g = true →
    (st_mtime g <= best_times_mtime st)%Q;
  bt_file : ∀ p, best_times_file st = Some p →
    ∃ f, f ∈ seen ∧ path f = p ∧ is_best_times_file f = true
      ∧ st_mtime f = best_times_mtime st;
  br_none : black_ribbon_file st = None →
    ∀ g meets, g ∈ seen → ¬ candidate g meets;
  br_file : ∀ p, black_ribbon_file st = Some p →
    ∃ pre f post meets k,
      seen = pre ++ f :: post ∧ path f = p ∧ candidate f meets
      ∧ black_ribbon_meets st = Some meets ∧ highest meets k
      ∧ (∀ g mg kg, g ∈ pre → candidate g mg → highest mg kg → kg < k)
      ∧ (∀ g mg kg, g ∈ post → candidate g mg → highest mg kg → kg ≤ k);
}.

Lemma discovered_initial : discovered [] initial.
Proof.
  split; try done.
  - by intros g ?%elem_of_nil.
  - by intros _ g meets ?%elem_of_nil.
Qed.

Lemma is_set_Some p : p ≠ "" → is_set (Some p) = true.
Proof. by destruct p. Qed.

Lemma visit_discovered seen st f :
  discovered seen st → path f ≠ "" → Forall (λ g, path g ≠ "") seen →
  ∃ st', visit st f = Ok st' ∧ discovered (seen ++ [f]) st'.
Proof.
  intros [Hbound Hbt Hnone Hbr] Hpath Hpaths. unfold visit.
  destruct (is_best_times_file f) eqn:Hf.
  { (* a best-times file *)
    assert (Hnc : ∀ meets, ¬ candidate f meets) by (intros m [? _]; congruence).
    destruct (Qlt_le_dec _ _) as [Hlt|Hle]; eexists; (split; [done|]); split; cbn.
    - intros g [Hg | ->%list_elem_of_singleton]%elem_of_app Hg'; [|apply Qle_refl].
      apply Qlt_le_weak, Qle_lt_trans with (best_times_mtime st); auto.
    - intros p [= <-]. exists f. split; [apply elem_of_app; right; left|done].
    - intros Hn g meets [Hg | ->%list_elem_of_singleton]%elem_of_app; eauto.
    - intros p Hp. destruct (Hbr p Hp)
        as (pre & f0 & post & meets & k & -> & ? & ? & ? & ? & ? & Hpost).
      exists pre, f0, (post ++ [f]), meets, k. rewrite <- app_assoc.
      split_and!; try done.
      intros g mg kg [Hg | ->%list_elem_of_singleton]%elem_of_app Hc; [by eauto|].
      by destruct (Hnc mg).
    - intros g [Hg | ->%list_elem_of_singleton]%elem_of_app Hbtg; auto.
    - intros p Hp. destruct (Hbt p Hp) as (f0 & ? & ? & ? & ?).
      exists f0. split; [apply elem_of_app; by left|done].
    - intros Hn g meets [Hg | ->%list_elem_of_singleton]%elem_of_app; eauto.
    - intros p Hp. destruct (Hbr p Hp)
        as (pre & f0 & post & meets & k & -> & ? & ? & ? & ? & ? & Hpost).
      exists pre, f0, (post ++ [f]), meets, k. rewrite <- app_assoc.
      split_and!; try done.
      intros g mg kg [Hg | ->%list_elem_of_singleton]%elem_of_app Hc; [by eauto|].
      by destruct (Hnc mg). }
  assert (Hbound' : ∀ g, g ∈ seen ++ [f] → is_best_times_file g = true →
                    (st_mtime g <= best_times_mtime st)%Q).
  { intros g [Hg | ->%list_elem_of_singleton]%elem_of_app Hg'; [auto|congruence]. }
  assert (Hbt' : ∀ p, best_times_file st = Some p →
                 ∃ f0, f0 ∈ seen ++ [f] ∧ path f0 = p
                   ∧ is_best_times_file f0 = true
                   ∧ st_mtime f0 = best_times_mtime st).
  { intros p Hp. destruct (Hbt p Hp) as (f0 & ? & ? & ? & ?).
    exists f0. split; [apply elem_of_app; by left|done]. }
  assert (Hskip : (∀ meets, ¬ candidate f meets) → discovered (seen ++ [f]) st).
  { intros Hnc. split; [done|done| |].
    - intros Hn g meets [Hg | ->%list_elem_of_singleton]%elem_of_app; eauto.
    - intros p Hp. destruct (Hbr p Hp)
        as (pre & f0 & post & meets & k & -> & ? & ? & ? & ? & ? & Hpost).
      exists pre, f0, (post ++ [f]), meets, k. rewrite <- app_assoc.
      split_and!; try done.
      intros g mg kg [Hg | ->%list_elem_of_singleton]%elem_of_app Hc; [by eauto|].
      by destruct (Hnc mg). }
  destruct (validate_black_ribbon_file f) as [meets|] eqn:Hv.
  2:{ exists st. split; [done|]. apply Hskip. intros m (_ & Hm & _). congruence. }
  case_bool_decide as Hne.
  2:{ exists st. split; [done|]. apply Hskip. intros m (_ & Hm & Hm').
      congruence. }
  assert (candidate f meets) as Hcand by done.
  destruct (max_key_highest meets Hne) as (kf & Hkf & Hhf).
  destruct (black_ribbon_file st) as [p|] eqn:Hp.
  - (* a file is already chosen *)
    destruct (Hbr p eq_refl)
      as (pre & f0 & post & m0 & k0 & -> & Hp0 & Hc0 & Hm0 & Hh0 & Hpre & Hpost).
    rewrite is_set_Some.
    2:{ rewrite <- Hp0. rewrite Forall_forall in Hpaths. apply Hpaths.
        apply elem_of_app. right. left. }
    rewrite Hkf, Hm0. destruct Hc0 as (Hc01 & Hc02 & Hc03).
    destruct (max_key_highest m0 Hc03) as (k0' & Hk0' & Hh0').
    rewrite (highest_fun _ _ _ Hh0' Hh0) in Hk0'. rewrite Hk0'. cbn [bind].
    destruct (decide (k0 < kf)) as [Hlt|Hge]; eexists; (split; [done|]).
    + split; [done|done|done|]. cbn. intros ? [= <-].
      exists (pre ++ f0 :: post), f, [], meets, kf.
      split_and!; try done.
      * intros g mg kg [Hg|[->|Hg]%elem_of_cons]%elem_of_app Hc Hh.
        -- specialize (Hpre g mg kg Hg Hc Hh). lia.
        -- destruct Hc as (_ & Hc & _). rewrite Hc02 in Hc. injection Hc as <-.
           rewrite (highest_fun _ _ _ Hh Hh0). done.
        -- specialize (Hpost g mg kg Hg Hc Hh). lia.
      * by intros g mg kg ?%elem_of_nil.
    + split; [done|done| |].
      * by rewrite Hp.
      * rewrite Hp. intros ? [= <-].
        exists pre, f0, (post ++ [f]), m0, k0. rewrite <- app_assoc.
        split_and!; try done.
        intros g mg kg [Hg | ->%list_elem_of_singleton]%elem_of_app Hc Hh;
          [by eauto|].
        destruct Hc as (_ & Hc & _). rewrite Hv in Hc. injection Hc as <-.
        rewrite (highest_fun _ _ _ Hh Hhf). lia.
  - (* the first candidate *)
    cbn [is_set]. eexists. split; [done|]. split; [done|done|done|].
    cbn. intros ? [= <-]. exists seen, f, [], meets, kf.
    split_and!; try done.
    + intros g mg kg Hg Hc _. by destruct (Hnone eq_refl g mg Hg).
    + by intros g mg kg ?%elem_of_nil.
Qed.

Lemma discover_discovered files seen st :
  discovered seen st →
  Forall (λ g, path g ≠ "") seen → Forall (λ g, path g ≠ "") files →
  ∃ st', discover st files = Ok st' ∧ discovered (seen ++ files) st'.
Proof.
  revert seen st. induction files as [|f files IH]; intros seen st Hinv Hseen Hfiles.
  - exists st. by rewrite app_nil_r.
  - apply Forall_cons in Hfiles as [Hf Hfiles].
    destruct (visit_discovered seen st f Hinv Hf Hseen) as (st1 & Hvisit & Hinv1).
    destruct (IH (seen ++ [f]) st1 Hinv1) as (st' & Hst' & Hinv'); [|done|].
    { apply Forall_app. split; [done|]. by apply Forall_singleton. }
    exists st'. cbn [discover]. rewrite Hvisit. cbn [bind].
    by rewrite (cons_middle f), (assoc_L (++)).
Qed.

(** A file that is neither a best-times file nor a candidate report card
    leaves the selection as it is. *)
Lemma visit_skip st f : relevant f = false → visit st f = Ok st.
Proof.
  unfold relevant, is_candidate, visit.
  intros [-> Hc]%orb_false_iff.
  destruct (validate_black_ribbon_file f) as [meets|]; [|done].
  by rewrite Hc.
Qed.

Lemma discover_filter st files :
  discover st (filter (λ f, relevant f = true) files) = discover st files.
Proof.
  revert st. induction files as [|f files IH]; intros st; [done|].
  rewrite filter_cons. destruct (decide (relevant f = true)) as [Hr|Hr].
  - cbn [discover]. destruct (visit st f); cbn [bind]; [apply IH|done].
  - cbn [discover]. rewrite visit_skip by by destruct (relevant f).
    cbn [bind]. apply IH.
Qed.

(** C6. The loop over the CSV files of the directory ends with: as the
    best-times file, a file of the exact ten-column header whose
    modification time is the greatest among the files of that header; as the
    report card, a file that the repeating-block scan accepts with a meet
    directory that is not empty, whose greatest meet index is above that of
    every candidate met before it (and not below that of any candidate met
    after it); and the files that are neither change nothing, so that the
    loop ends as it does on the list without them. *)
Theorem discovery files :
  Forall (λ f, path f ≠ "") files →
  ∃ st, discover initial files = Ok st
    ∧ (∀ p, best_times_file st = Some p →
         ∃ f, f ∈ files ∧ path f = p ∧ is_best_times_file f = true
           ∧ ∀ g, g ∈ files → is_best_times_file g = true →
               (st_mtime g <= st_mtime f)%Q)
    ∧ (∀ p, black_ribbon_file st = Some p →
         ∃ pre f post meets k,
           files = pre ++ f :: post ∧ path f = p ∧ candidate f meets
           ∧ black_ribbon_meets st = Some meets ∧ highest meets k
           ∧ (∀ g mg kg, g ∈ pre → candidate g mg → highest mg kg → kg < k)
           ∧ (∀ g mg kg, g ∈ post → candidate g mg → highest mg kg → kg ≤ k))
    ∧ discover initial (filter (λ f, relevant f = true) files) = Ok st.
Proof.
  intros Hpaths.
  destruct (discover_discovered files [] initial discovered_initial)
    as (st & Hst & [Hbound Hbt _ Hbr]); [done|done|].
  exists st. split; [done|]. split; [|split].
  - intros p Hp. destruct (Hbt p Hp) as (f & Hf & Hpf & Hbf & Hm).
    exists f. split_and!; try done. intros g Hg Hbg. rewrite Hm. by apply Hbound.
  - exact Hbr.
  - by rewrite discover_filter.
Qed.

Definition report_card (meets : nat) (times : list string) : list (list string) :=
  [ gen_black_ribbons.expected_columns meets;
    ["Girls 9-10"; "17"; "Doe"; "Ann"; "Doe_Ann"; "9"; "50"; "free"] ++ times
    ++ ["3"; "2"; "9"; "0.6"; "1.9"] ].

Definition sample_files : list file :=
  [ File "/meets/notes.csv" (Some [["week"; "coach"]]) 40;
    File "/meets/best_may.csv" (Some [gen_best_times.ExpectedColumns]) 5;
    File "/meets/card_two.csv"
      (Some (report_card 2
               ["Time Trials"; "32.10"; "32.1"; ""; "1"; "06/01";
                "A Meet"; "31.80"; "31.8"; "Y"; "3"; "06/08"])) 7;
    File "/meets/best_june.csv" (Some [gen_best_times.ExpectedColumns]) 9;
    File "/meets/card_three.csv"
      (Some (report_card 3
               ["Time Trials"; "32.10"; "32.1"; ""; "1"; "06/01";
                "A Meet"; "31.80"; "31.8"; "Y"; "3"; "06/08";
                "B Meet"; "31.50"; "31.5"; "Y"; "5"; "06/15"])) 3;
    File "/meets/unreadable.csv" None 50 ].

Lemma discovery_witness :
  ∃ st, discover initial sample_files = Ok st
    ∧ best_times_file st = Some "/meets/best_june.csv"
    ∧ black_ribbon_file st = Some "/meets/card_three.csv"
    ∧ (∀ p, best_times_file st = Some p →
         ∃ f, f ∈ sample_files ∧ path f = p ∧ is_best_times_file f = true
           ∧ ∀ g, g ∈ sample_files → is_best_times_file g = true →
               (st_mtime g <= st_mtime f)%Q)
    ∧ discover initial (filter (λ f, relevant f = true) sample_files) = Ok st.
Proof.
  destruct (discovery sample_files) as (st & Hst & Hbt & _ & Hfilter).
  { repeat constructor; done. }
  exists st. assert (Hst' := Hst). vm_compute in Hst'. injection Hst' as <-.
  split; [exact Hst|]. split; [reflexivity|]. split; [reflexivity|].
  split; [exact Hbt|exact Hfilter].
Defined.

End Discovery.

(** ** The two scans of the meet directory *)

Section MeetDirectories.

(** A report card of two meets with one row: the block of the first meet
    has a result and no meet name, the block of the second has a meet name
    and seconds but no formatted result. *)
Definition nameless_meet_rows : list (list string) :=
  [ gen_black_ribbons.expected_columns 2;
    [ "Girls 9-10"; "17"; "Doe"; "Ann"; "Doe_Ann"; "9"; "50"; "free";
      ""; "32.10"; "32.1"; ""; "1"; "06/01";
      "Jun 8 A Meet"; ""; "31.8"; "Y"; "3"; "06/08";
      "2"; "1"; "4"; "0.3"; "0.9" ] ].

(** C8. On the same rows the scan of [gen_black_ribbons.read_data] and the
    scan of [gen_all.validate_black_ribbon_file] build different meet
    directories: [read_data] asks for a meet name and a formatted result and
    records no meet, the discovery scan asks for the seconds only and records
    both meets, the first one under an empty name. *)
Theorem meet_directories_differ :
  gen_black_ribbons.read_data "card.csv" nameless_meet_rows
  = IO [] (Ok ([None; None], drop 1 nameless_meet_rows))
  ∧ gen_all.validate_black_ribbon_file
      (gen_all.File "card.csv" (Some nameless_meet_rows) 0)
    = Some {[ 0 := ""; 1 := "Jun 8 A Meet" ]}.
Proof. split; vm_compute; reflexivity. Qed.

End MeetDirectories.

(** * Further properties of the code *)

(** ** The meet directory of a report card *)

Section MeetDirectory.

Import gen_black_ribbons.

(** What block [i] of a row gives the meet directory of [read_data]: the
    meet name and the date, when the name and the result are not empty. *)
Definition block_entry (line : list string) (i : nat) : option (string * string) :=
  match line !! (8 + 6 * i), line !! (9 + 6 * i), line !! (13 + 6 * i) with
  | Some meet_name, Some result, Some date =>
      if truthy meet_name && truthy result then Some (meet_name, date) else None
  | _, _, _ => None
  end.

(** The entry of the first row that has one. *)
Definition first_entry (lines : list (list string)) (i : nat)
    : option (string * string) :=
  head (omap (λ line, block_entry line i) lines).

Lemma slice6 (line : list string) (s : nat) :
  s + 6 ≤ length line →
  ∃ a b c d e f,
    take 6 (drop s line) = [a; b; c; d; e; f]
    ∧ line !! s = Some a ∧ line !! (s + 1) = Some b ∧ line !! (s + 5) = Some f.
Proof.
  intros Hlen.
  assert (6 ≤ length (drop s line)) as Hd by (rewrite length_drop; lia).
  destruct (drop s line) as [|a [|b [|c [|d [|e [|f rest]]]]]] eqn:Hdrop;
    cbn [length] in Hd; try lia.
  exists a, b, c, d, e, f. split; [done|].
  rewrite <- (Nat.add_0_r s) at 1.
  rewrite <- !lookup_drop, Hdrop. done.
Qed.

Lemma slice6_short (line : list string) (s : nat) :
  length line < s + 6 → length (take 6 (drop s line)) < 6.
Proof. intros Hlen. rewrite length_take, length_drop. lia. Qed.

(** One row, blocks [k], [k+1], ..., below [k + m]. *)
Lemma scan_line_spec line k m (meets : meet_directory) :
  8 + 6 * (k + m) ≤ length line →
  ∃ meets', scan_line line (seq k m) meets = Ok meets'
    ∧ length meets' = length meets
    ∧ ∀ i, meets' !! i =
        if decide (k ≤ i < k + m)
        then match meets !! i with
             | Some None => Some (block_entry line i)
             | other => other
             end
        else meets !! i.
Proof.
  revert k meets. induction m as [|m IH]; intros k meets Hlen.
  { exists meets. split; [done|]. split; [done|]. intros i.
    by rewrite decide_False by lia. }
  cbn [seq scan_line].
  change (_NumLeadColumns + k * _NumColumnsPerMeet) with (8 + k * 6).
  change _NumColumnsPerMeet with 6.
  replace (8 + k * 6 + 6 - (8 + k * 6)) with 6 by lia.
  destruct (slice6 line (8 + k * 6)) as (a & b & c & d & e & f & -> & Ha & Hb & Hf);
    [lia|].
  set (meets1 := if truthy a && truthy b && bool_decide (meets !! k = Some None)
                 then <[k := Some (a, f)]> meets else meets).
  destruct (IH (S k) meets1) as (meets' & -> & Hlen' & Hmeets'); [lia|].
  assert (length meets1 = length meets) as Hlen1.
  { unfold meets1. destruct (_ && _ && _); [|done]. by rewrite length_insert. }
  exists meets'. split; [done|]. split; [congruence|]. intros i. rewrite Hmeets'.
  assert (Hentry : block_entry line k
                   = if truthy a && truthy b then Some (a, f) else None).
  { unfold block_entry.
    replace (8 + 6 * k) with (8 + k * 6) by lia.
    replace (9 + 6 * k) with (8 + k * 6 + 1) by lia.
    replace (13 + 6 * k) with (8 + k * 6 + 5) by lia.
    by rewrite Ha, Hb, Hf. }
  destruct (decide (i = k)) as [->|Hik].
  - rewrite decide_False, decide_True by lia. unfold meets1. rewrite Hentry.
    destruct (truthy a && truthy b) eqn:Hab; cbn [andb].
    + case_bool_decide as Hk.
      * rewrite list_lookup_insert_eq, Hk; [done|]. by apply lookup_lt_Some in Hk.
      * destruct (meets !! k) as [[?|]|]; done.
    + by destruct (meets !! k) as [[?|]|].
  - assert (meets1 !! i = meets !! i) as ->.
    { unfold meets1. destruct (_ && _ && _); [|done].
      by rewrite list_lookup_insert_ne. }
    destruct (decide (S k ≤ i < S k + m)); [rewrite decide_True by lia|
      rewrite decide_False by lia]; done.
Qed.

Lemma first_entry_cons line lines i :
  first_entry (line :: lines) i
  = match block_entry line i with
    | Some e => Some e
    | None => first_entry lines i
    end.
Proof. unfold first_entry. cbn. by destruct (block_entry line i). Qed.

Lemma scan_lines_spec lines n (meets : meet_directory) :
  length meets = n →
  Forall (λ line, 8 + 6 * n ≤ length line) lines →
  ∃ meets', scan_lines lines n meets = Ok meets'
    ∧ length meets' = n
    ∧ ∀ i, meets' !! i =
        match meets !! i with
        | Some None => Some (first_entry lines i)
        | other => other
        end.
Proof.
  intros Hn Hlines. revert meets Hn.
  induction Hlines as [|line lines Hline _ IH]; intros meets Hn.
  { exists meets. split; [done|]. split; [done|]. intros i.
    by destruct (meets !! i) as [[?|]|]. }
  cbn [scan_lines].
  destruct (scan_line_spec line 0 n meets) as (meets1 & -> & Hlen1 & Hmeets1);
    [done|].
  cbn [bind].
  destruct (IH meets1) as (meets' & -> & Hlen' & Hmeets'); [congruence|].
  exists meets'. split; [done|]. split; [done|]. intros i.
  rewrite Hmeets', Hmeets1, first_entry_cons.
  destruct (decide (0 ≤ i < 0 + n)) as [Hi|Hi].
  - destruct (meets !! i) as [[e|]|]; [done| |done].
    by destruct (block_entry line i).
  - rewrite (lookup_ge_None_2 meets i) by lia. done.
Qed.

(** A row that stops before the end of its last meet block cannot be
    unpacked. *)
Lemma scan_line_short line k m (meets : meet_directory) :
  length line < 8 + 6 * (k + m) → 1 ≤ m →
  scan_line line (seq k m) meets = Raise ValueError.
Proof.
  revert k meets. induction m as [|m IH]; intros k meets Hlen Hm; [lia|].
  cbn [seq scan_line].
  change (_NumLeadColumns + k * _NumColumnsPerMeet) with (8 + k * 6).
  change _NumColumnsPerMeet with 6.
  replace (8 + k * 6 + 6 - (8 + k * 6)) with 6 by lia.
  destruct (decide (8 + k * 6 + 6 ≤ length line)) as [Hfit|Hshort].
  - destruct (slice6 line (8 + k * 6)) as (a & b & c & d & e & f & -> & _); [done|].
    apply IH; lia.
  - pose proof (slice6_short line (8 + k * 6) ltac:(lia)) as Hs.
    destruct (take 6 (drop (8 + k * 6) line)) as [|a [|b [|c [|d [|e [|f [|]]]]]]];
      cbn [length] in Hs; try done; lia.
Qed.

Lemma scan_line_ValueError line blocks (meets : meet_directory) e :
  scan_line line blocks meets = Raise e → e = ValueError.
Proof.
  revert meets. induction blocks as [|i blocks IH]; intros meets; [done|].
  cbn [scan_line].
  destruct (take _ _) as [|a [|b [|c [|d [|e' [|f [|]]]]]]]; try by intros [= <-].
  apply IH.
Qed.

Lemma scan_lines_short lines n (meets : meet_directory) :
  Exists (λ line, length line < 8 + 6 * n) lines → 1 ≤ n →
  scan_lines lines n meets = Raise ValueError.
Proof.
  intros Hshort Hn. revert meets.
  induction lines as [|line lines IH]; intros meets; [by apply Exists_nil in Hshort|].
  cbn [scan_lines].
  destruct (scan_line line (seq 0 n) meets) as [meets1|e] eqn:Hline; cbn [bind].
  - apply Exists_cons in Hshort as [Hshort|Hshort]; [|by apply IH].
    by rewrite scan_line_short in Hline.
  - by apply scan_line_ValueError in Hline as ->.
Qed.

(** With a well-formed header [read_data] is the scan of the rows. *)
Lemma read_data_scan src n lines :
  1 ≤ n →
  read_data src (expected_columns n :: lines)
  = (meets <~ lift (scan_lines lines n (replicate n None)) ;; ret (meets, lines)).
Proof.
  intros Hn.
  assert (Hhead : check_header (expected_columns n) = Ok n).
  { apply check_header_Ok. split; [done|apply expected_columns_header]. }
  unfold read_data.
  change (take 1 (expected_columns n :: lines)) with [expected_columns n].
  change (index [expected_columns n] 0) with (Ok (expected_columns n)).
  change (drop 1 (expected_columns n :: lines)) with lines.
  unfold lift, io_bind at 1. rewrite Hhead. cbv beta iota.
  by destruct (io_bind _ _).
Qed.

(** X1. For a report card with a well-formed header of [n] meets,
    [read_data] returns exactly when every row has the columns of the [n]
    meet blocks; entry [i] of the meet directory it returns is the name and
    the date of the first row whose block [i] has a name and a result, and
    [None] when no row has; a shorter row ends the run with an uncaught
    [ValueError]. *)
Theorem read_data_meet_directory src n lines :
  1 ≤ n →
  (Forall (λ line, 8 + 6 * n ≤ length line) lines →
     read_data src (expected_columns n :: lines)
     = IO [] (Ok ((λ i, first_entry lines i) <$> seq 0 n, lines)))
  ∧ (Exists (λ line, length line < 8 + 6 * n) lines →
       read_data src (expected_columns n :: lines) = IO [] (Raise ValueError)).
Proof.
  intros Hn. rewrite read_data_scan by done. split.
  - intros Hlines.
    destruct (scan_lines_spec lines n (replicate n None))
      as (meets' & -> & Hlen & Hmeets'); [by rewrite length_replicate|done|].
    cbn. do 3 f_equal. apply list_eq. intros i. rewrite Hmeets'.
    rewrite list_lookup_fmap. destruct (decide (i < n)) as [Hi|Hi].
    + rewrite lookup_replicate_2 by done. by rewrite lookup_seq_lt.
    + rewrite (proj1 (lookup_replicate_None n None i)) by lia.
      by rewrite lookup_seq_ge by lia.
  - intros Hshort. by rewrite scan_lines_short.
Qed.

Lemma read_data_meet_directory_witness :
  read_data "card.csv" (expected_columns 2 :: drop 1 nameless_meet_rows)
  = IO [] (Ok ([None; None], drop 1 nameless_meet_rows))
  ∧ read_data "card.csv" (expected_columns 3 :: drop 1 nameless_meet_rows)
    = IO [] (Raise ValueError).
Proof.
  split.
  - refine (proj1 (read_data_meet_directory "card.csv" 2 _ _) _); [lia|].
    repeat constructor; cbn; lia.
  - refine (proj2 (read_data_meet_directory "card.csv" 3 _ _) _); [lia|].
    left. cbn. lia.
Defined.

End MeetDirectory.

(** ** The meet directory of the discovery scan *)

Section DiscoveryScan.

Import gen_all.

(** What block [i] of a row gives the dictionary of
    [validate_black_ribbon_file]: the meet name, when the seconds are not
    empty. *)
Definition seconds_entry (line : list string) (i : nat) : option string :=
  match line !! (10 + 6 * i), line !! (8 + 6 * i) with
  | Some seconds, Some name => if truthy seconds then Some name else None
  | _, _ => None
  end.

Definition first_seconds (lines : list (list string)) (i : nat) : option string :=
  head (omap (λ line, seconds_entry line i) lines).

Lemma gen_all_scan_line_spec line k m (meets : gmap nat string) :
  5 + 6 * (k + m) ≤ length line →
  ∃ meets', scan_line 8 6 line (seq k m) meets = Ok meets'
    ∧ ∀ i, meets' !! i =
        if decide (k ≤ i < k + m)
        then match meets !! i with
             | Some name => Some name
             | None => seconds_entry line i
             end
        else meets !! i.
Proof.
  revert k meets. induction m as [|m IH]; intros k meets Hlen.
  { exists meets. split; [done|]. intros i. by rewrite decide_False by lia. }
  cbn [seq scan_line]. unfold index.
  destruct (lookup_lt_is_Some_2 line (8 + 2 + k * 6)) as [sec Hsec]; [lia|].
  destruct (lookup_lt_is_Some_2 line (8 + k * 6)) as [name Hname]; [lia|].
  rewrite Hsec. cbn [bind].
  assert (Hentry : seconds_entry line k = if truthy sec then Some name else None).
  { unfold seconds_entry.
    replace (10 + 6 * k) with (8 + 2 + k * 6) by lia.
    replace (8 + 6 * k) with (8 + k * 6) by lia. by rewrite Hsec, Hname. }
  set (meets1 := if truthy sec && bool_decide (meets !! k = None)
                 then <[k := name]> meets else meets).
  assert (Hstep :
    (if truthy sec
     then if bool_decide (meets !! k = None)
          then name0 <- match line !! (8 + k * 6) with
                        | Some x => Ok x
                        | None => Raise IndexError
                        end ;;
               scan_line 8 6 line (seq (S k) m) (<[k := name0]> meets)
          else scan_line 8 6 line (seq (S k) m) meets
     else scan_line 8 6 line (seq (S k) m) meets)
    = scan_line 8 6 line (seq (S k) m) meets1).
  { unfold meets1. rewrite Hname. cbn [bind].
    destruct (truthy sec); [|done]. by destruct (bool_decide _). }
  rewrite Hstep.
  destruct (IH (S k) meets1) as (meets' & -> & Hmeets'); [lia|].
  exists meets'. split; [done|]. intros i. rewrite Hmeets'.
  destruct (decide (i = k)) as [->|Hik].
  - rewrite decide_False, decide_True by lia. unfold meets1. rewrite Hentry.
    destruct (truthy sec); cbn [andb]; [|by destruct (meets !! k)].
    case_bool_decide as Hk.
    + by rewrite lookup_insert_eq, Hk.
    + by destruct (meets !! k).
  - assert (meets1 !! i = meets !! i) as ->.
    { unfold meets1. destruct (_ && _); [|done]. by rewrite lookup_insert_ne. }
    destruct (decide (S k ≤ i < S k + m)); [rewrite decide_True by lia|
      rewrite decide_False by lia]; done.
Qed.

Lemma first_seconds_cons line lines i :
  first_seconds (line :: lines) i
  = match seconds_entry line i with
    | Some name => Some name
    | None => first_seconds lines i
    end.
Proof. unfold first_seconds. cbn. by destruct (seconds_entry line i). Qed.

Lemma gen_all_scan_lines_spec lines n (meets : gmap nat string) :
  Forall (λ line, 5 + 6 * n ≤ length line) lines →
  ∃ meets', scan_lines 8 6 n lines meets = Ok meets'
    ∧ ∀ i, meets' !! i =
        match meets !! i with
        | Some name => Some name
        | None => if decide (i < n) then first_seconds lines i else None
        end.
Proof.
  intros Hlines. revert meets.
  induction Hlines as [|line lines Hline _ IH]; intros meets.
  { exists meets. split; [done|]. intros i.
    destruct (meets !! i); [done|]. by destruct (decide _). }
  cbn [scan_lines].
  destruct (gen_all_scan_line_spec line 0 n meets) as (meets1 & -> & Hmeets1);
    [done|].
  cbn [bind]. destruct (IH meets1) as (meets' & -> & Hmeets').
  exists meets'. split; [done|]. intros i.
  rewrite Hmeets', Hmeets1, first_seconds_cons.
  destruct (decide (0 ≤ i < 0 + n)) as [Hi|Hi].
  - destruct (decide (i < n)); [|lia]. destruct (meets !! i); [done|].
    by destruct (seconds_entry line i).
  - destruct (decide (i < n)); [lia|]. done.
Qed.

(** A row that stops before the seconds of its last meet block. *)
Lemma gen_all_scan_line_short line k m (meets : gmap nat string) :
  length line < 5 + 6 * (k + m) → 1 ≤ m →
  ∃ e, scan_line 8 6 line (seq k m) meets = Raise e.
Proof.
  revert k meets. induction m as [|m IH]; intros k meets Hlen Hm; [lia|].
  cbn [seq scan_line]. unfold index.
  destruct (line !! (8 + 2 + k * 6)) as [sec|] eqn:Hsec; cbn [bind]; [|by eexists].
  apply lookup_lt_Some in Hsec.
  destruct (lookup_lt_is_Some_2 line (8 + k * 6)) as [name ->]; [lia|].
  cbn [bind]. destruct (truthy sec); [destruct (bool_decide _)|]; apply IH; lia.
Qed.

Lemma gen_all_scan_lines_short lines n (meets : gmap nat string) :
  Exists (λ line, length line < 5 + 6 * n) lines → 1 ≤ n →
  ∃ e, scan_lines 8 6 n lines meets = Raise e.
Proof.
  intros Hshort Hn. revert meets.
  induction lines as [|line lines IH]; intros meets; [by apply Exists_nil in Hshort|].
  cbn [scan_lines].
  destruct (scan_line 8 6 line (seq 0 n) meets) as [meets1|e] eqn:Hline; cbn [bind];
    [|by eexists].
  apply Exists_cons in Hshort as [Hshort|Hshort]; [|by apply IH].
  destruct (gen_all_scan_line_short line 0 n meets) as [e He]; [done..|].
  congruence.
Qed.

Lemma validate_scan p t n lines :
  1 ≤ n →
  validate_black_ribbon_file
    (File p (Some (gen_black_ribbons.expected_columns n :: lines)) t)
  = match scan_lines 8 6 n lines ∅ with
    | Ok meets_in_file => Some meets_in_file
    | Raise _ => None
    end.
Proof.
  intros Hn. unfold validate_black_ribbon_file, open, next. cbn [csv bind].
  assert (check_header (gen_black_ribbons.expected_columns n) = Ok n) as ->.
  { apply gen_all_check_header_Ok. split; [done|].
    apply expected_columns_header. }
  done.
Qed.

(** X2. For a report card with a well-formed header of [n] meets, the
    discovery scan returns a dictionary exactly when every row reaches the
    seconds column of the last meet block; index [i] below [n] is then
    mapped to the meet name of the first row whose block [i] has seconds
    (whatever the name is), and no other index is mapped; with a shorter
    row the scan returns [None]. *)
Theorem validate_black_ribbon_file_directory p t n lines :
  1 ≤ n →
  (Forall (λ line, 5 + 6 * n ≤ length line) lines →
     ∃ meets,
       validate_black_ribbon_file
         (File p (Some (gen_black_ribbons.expected_columns n :: lines)) t)
       = Some meets
       ∧ ∀ i, meets !! i = if decide (i < n) then first_seconds lines i else None)
  ∧ (Exists (λ line, length line < 5 + 6 * n) lines →
       validate_black_ribbon_file
         (File p (Some (gen_black_ribbons.expected_columns n :: lines)) t)
       = None).
Proof.
  intros Hn. rewrite validate_scan by done. split.
  - intros Hlines.
    destruct (gen_all_scan_lines_spec lines n ∅ Hlines) as (meets & -> & Hmeets).
    exists meets. split; [done|]. intros i. by rewrite Hmeets, lookup_empty.
  - intros Hshort.
    by destruct (gen_all_scan_lines_short lines n ∅ Hshort Hn) as [e ->].
Qed.

Lemma validate_black_ribbon_file_directory_witness :
  (∃ meets,
     validate_black_ribbon_file
       (File "card.csv"
          (Some (gen_black_ribbons.expected_columns 2 :: drop 1 nameless_meet_rows))
          0) = Some meets
     ∧ ∀ i, meets !! i
            = if decide (i < 2)
              then first_seconds (drop 1 nameless_meet_rows) i else None)
  ∧ validate_black_ribbon_file
      (File "card.csv"
         (Some (gen_black_ribbons.expected_columns 5 :: drop 1 nameless_meet_rows))
         0) = None.
Proof.
  split.
  - refine (proj1 (validate_black_ribbon_file_directory "card.csv" 0 2 _ _) _);
      [lia|]. repeat constructor; cbn; lia.
  - refine (proj2 (validate_black_ribbon_file_directory "card.csv" 0 5 _ _) _);
      [lia|]. left. cbn. lia.
Defined.

End DiscoveryScan.

(** ** When the two scans agree *)

Section ScansAgree.

(** In block [i] of the row the seconds are filled in exactly when the meet
    name and the formatted result both are. *)
Definition consistent_block (line : list string) (i : nat) : Prop :=
  ∀ name result seconds,
    line !! (8 + 6 * i) = Some name →
    line !! (9 + 6 * i) = Some result →
    line !! (10 + 6 * i) = Some seconds →
    seconds ≠ "" ↔ name ≠ "" ∧ result ≠ "".

Definition consistent_row (n : nat) (line : list string) : Prop :=
  8 + 6 * n ≤ length line ∧ ∀ i, i < n → consistent_block line i.

Lemma block_entry_seconds n line i :
  consistent_row n line → i < n →
  fst <$> block_entry line i = seconds_entry line i.
Proof.
  intros [Hlen Hcons] Hi. unfold block_entry, seconds_entry.
  destruct (lookup_lt_is_Some_2 line (8 + 6 * i)) as [name Hname]; [lia|].
  destruct (lookup_lt_is_Some_2 line (9 + 6 * i)) as [result Hresult]; [lia|].
  destruct (lookup_lt_is_Some_2 line (10 + 6 * i)) as [sec Hsec]; [lia|].
  destruct (lookup_lt_is_Some_2 line (13 + 6 * i)) as [date Hdate]; [lia|].
  rewrite Hname, Hresult, Hsec, Hdate.
  pose proof (Hcons i Hi name result sec Hname Hresult Hsec) as Hiff.
  rewrite <- !truthy_iff in Hiff.
  destruct (truthy name), (truthy result), (truthy sec); cbn; try done;
    destruct Hiff as [H1 H2]; try (by destruct H1); by ospecialize (H2 _).
Qed.

Lemma first_entry_seconds n lines i :
  Forall (consistent_row n) lines → i < n →
  fst <$> first_entry lines i = first_seconds lines i.
Proof.
  intros Hlines Hi. induction Hlines as [|line lines Hline _ IH]; [done|].
  rewrite first_entry_cons, first_seconds_cons.
  rewrite <- (block_entry_seconds n line i Hline Hi).
  by destruct (block_entry line i).
Qed.

(** X3. When every row has the columns of the [n] meet blocks and in every
    block the seconds are filled in exactly when the meet name and the
    result are, the scan of [gen_black_ribbons.read_data] and the discovery
    scan of [gen_all] find the same meets under the same names. *)
Theorem meet_directories_agree src p t n lines :
  1 ≤ n → Forall (consistent_row n) lines →
  ∃ directory meets,
    gen_black_ribbons.read_data src (gen_black_ribbons.expected_columns n :: lines)
    = IO [] (Ok (directory, lines))
    ∧ gen_all.validate_black_ribbon_file
        (gen_all.File p (Some (gen_black_ribbons.expected_columns n :: lines)) t)
      = Some meets
    ∧ ∀ i name,
        meets !! i = Some name
        ↔ ∃ date, directory !! i = Some (Some (name, date)).
Proof.
  intros Hn Hlines.
  assert (Hlen : Forall (λ line, 8 + 6 * n ≤ length line) lines).
  { eapply Forall_impl; [exact Hlines|]. by intros line [? _]. }
  assert (Hlen' : Forall (λ line, 5 + 6 * n ≤ length line) lines).
  { eapply Forall_impl; [exact Hlen|]. cbn. lia. }
  rewrite read_data_scan, validate_scan by done.
  destruct (scan_lines_spec lines n (replicate n None))
    as (directory & -> & _ & Hdir); [by rewrite length_replicate|done|].
  destruct (gen_all_scan_lines_spec lines n ∅ Hlen') as (meets & -> & Hmeets).
  exists directory, meets. split; [done|]. split; [done|].
  intros i name. rewrite Hmeets, Hdir, lookup_empty.
  destruct (decide (i < n)) as [Hi|Hi].
  - rewrite lookup_replicate_2 by done.
    rewrite <- (first_entry_seconds n lines i Hlines Hi).
    destruct (first_entry lines i) as [[name' date]|]; cbn.
    + split; [intros [= <-]; by eexists|by intros [date' [= <- _]]].
    + split; [done|by intros [? [=]]].
  - rewrite (proj1 (lookup_replicate_None n None i)) by lia.
    split; [done|by intros [? [=]]].
Qed.

Definition sample_row_two_meets : list string :=
  [ "Girls 9-10"; "17"; "Doe"; "Ann"; "Doe_Ann"; "9"; "50"; "free";
    "Jun 1 Time Trials"; "32.10"; "32.1"; ""; "1"; "06/01";
    ""; ""; ""; ""; ""; "";
    "1"; "0"; "1"; ""; "" ].

Lemma meet_directories_agree_witness :
  ∃ directory meets,
    gen_black_ribbons.read_data "card.csv"
      (gen_black_ribbons.expected_columns 2 :: [sample_row_two_meets])
    = IO [] (Ok (directory, [sample_row_two_meets]))
    ∧ gen_all.validate_black_ribbon_file
        (gen_all.File "card.csv"
           (Some (gen_black_ribbons.expected_columns 2 :: [sample_row_two_meets]))
           0)
      = Some meets
    ∧ ∀ i name,
        meets !! i = Some name
        ↔ ∃ date, directory !! i = Some (Some (name, date)).
Proof.
  apply (meet_directories_agree "card.csv" "card.csv" 0 2 [sample_row_two_meets]);
    [lia|].
  apply Forall_singleton. split; [cbn; lia|].
  intros i Hi name result seconds.
  assert (i = 0 ∨ i = 1) as [-> | ->] by lia; intros [= <-] [= <-] [= <-];
    (split; [intros H|intros [H H']]); first [done | by destruct H].
Defined.

End ScansAgree.

(** ** The header of a best-times file *)

Section BestTimesHeader.

Lemma best_times_check_header header :
  gen_best_times.check_header header = Ok tt
  ↔ header = gen_best_times.ExpectedColumns.
Proof.
  unfold gen_best_times.check_header, assert. split.
  - case_bool_decide as Hlen; [|done]. cbn [bind].
    by intros ?%(check_columns_eq 0).
  - intros ->. rewrite bool_decide_eq_true_2 by done. cbn [bind].
    by apply (check_columns_eq 0).
Qed.

Lemma is_best_times_file_spec f :
  gen_all.is_best_times_file f = true
  ↔ ∃ lines, gen_all.csv f = Some (gen_best_times.ExpectedColumns :: lines).
Proof.
  unfold gen_all.is_best_times_file, gen_all.open, gen_all.next, assert.
  destruct (gen_all.csv f) as [[|header lines]|]; cbn [bind].
  - split; [done|]. by intros [? [=]].
  - case_bool_decide as Hlen; cbn [bind fst].
    + destruct (gen_all.check_columns _) as [[]|e] eqn:Hc.
      * apply gen_all_check_columns_eq in Hc as ->; [|done].
        split; [by eexists|done].
      * split; [done|]. intros [lines' [= -> _]].
        by rewrite (proj2 (gen_all_check_columns_eq _ _ eq_refl)) in Hc.
    + split; [done|]. intros [lines' [= -> _]]. done.
  - split; [done|]. by intros [? [=]].
Qed.

(** X4. The exact-mode validators: the header check of
    [gen_best_times.read_data] and [gen_all.is_best_times_file] accept the
    ten expected column names and nothing else; on any other header
    [read_data] prints one message and exits with status 1; a file with no
    row at all ends [read_data] with an uncaught [IndexError]; and a
    best-times file is never accepted by the report-card scan. *)
Theorem best_times_header_validation src header lines f :
  (gen_best_times.check_header header = Ok tt
   ↔ header = gen_best_times.ExpectedColumns)
  ∧ (gen_all.is_best_times_file f = true
     ↔ ∃ rows, gen_all.csv f = Some (gen_best_times.ExpectedColumns :: rows))
  ∧ (header ≠ gen_best_times.ExpectedColumns →
       ∃ msg, gen_best_times.read_data src (header :: lines)
              = IO [msg] (Raise (SystemExit 1)))
  ∧ gen_best_times.read_data src [] = IO [] (Raise IndexError)
  ∧ (gen_all.is_best_times_file f = true →
       gen_all.validate_black_ribbon_file f = None).
Proof.
  split; [apply best_times_check_header|].
  split; [apply is_best_times_file_spec|].
  split; [|split; [done|]].
  - intros Hne. unfold gen_best_times.read_data.
    change (take 1 (header :: lines)) with [header].
    change (index [header] 0) with (Ok header).
    unfold lift, io_bind at 1.
    destruct (gen_best_times.check_header header) as [[]|e] eqn:Hc.
    + by apply best_times_check_header in Hc.
    + cbn. by eexists.
  - intros [rows Hrows]%is_best_times_file_spec.
    unfold gen_all.validate_black_ribbon_file, gen_all.open. by rewrite Hrows.
Qed.

Lemma best_times_header_validation_witness :
  (∃ msg, gen_best_times.read_data "bt.csv" [["AgeGroup"; "Name"]]
          = IO [msg] (Raise (SystemExit 1)))
  ∧ gen_all.validate_black_ribbon_file
      (gen_all.File "bt.csv" (Some [gen_best_times.ExpectedColumns]) 0) = None.
Proof.
  pose proof (best_times_header_validation "bt.csv" ["AgeGroup"; "Name"] []
                (gen_all.File "bt.csv" (Some [gen_best_times.ExpectedColumns]) 0))
    as (_ & _ & Hbad & _ & Hdisj).
  split; [apply Hbad; discriminate|apply Hdisj; reflexivity].
Defined.

End BestTimesHeader.

(** ** What the outline of the report holds *)

Section OutlineContent.

Import gen_best_times.

Lemma gen_unformatted_events_sublist (d : gmap string (list entry)) :
  (gen_unformatted_events d).*1 `sublist_of` _AllEvents.
Proof.
  unfold gen_unformatted_events. induction _AllEvents as [|e l IH]; [done|].
  rewrite bind_cons, fmap_app. destruct (d !! e); cbn.
  - by apply sublist_skip.
  - by apply sublist_cons.
Qed.

Lemma NoDup_AllEvents : NoDup _AllEvents.
Proof. apply (bool_decide_unpack _). by vm_compute. Qed.

(** X5. For a best-times file that [read_data] accepts, the outline lists
    the ten age groups in their canonical order; under each age group the
    events are in the canonical order of [_AllEvents], each at most once;
    and the swimmers under an event are exactly the results of the rows of
    that age group and event, in the order of [gen_unformatted_swimmers]. *)
Theorem report_content src rows out data :
  read_data src rows = IO out (Ok data) →
  ∃ report, gen_unformatted_report data = Ok report
    ∧ report.*1 = _AgeGroups
    ∧ ∀ ag events, (ag, events) ∈ report →
        events.*1 `sublist_of` _AllEvents
        ∧ NoDup events.*1
        ∧ ∀ ev swimmers, (ev, swimmers) ∈ events →
            swimmers = gen_unformatted_swimmers (results_for (drop 1 rows) ag ev).
Proof.
  intros (lines & -> & Hinv)%read_data_parsed. cbn [drop].
  eexists. split; [by eapply gen_unformatted_report_parsed|]. split.
  - rewrite <- list_fmap_compose. apply list_fmap_id.
  - intros ag events (ag' & [= <- ->] & Hag)%list_elem_of_fmap.
    split; [apply gen_unformatted_events_sublist|]. split.
    { eapply sublist_NoDup; [apply NoDup_AllEvents|].
      apply gen_unformatted_events_sublist. }
    intros ev swimmers (_ & rs & Hrs & ->)%elem_of_gen_unformatted_events.
    destruct (parsed_known _ _ _ Hinv ag Hag) as (events & Hdata & Hevents).
    rewrite Hdata in Hrs. cbn in Hrs.
    destruct (Hevents ev) as [(Hnone & _)|(Hsome & _)]; [congruence|].
    rewrite Hsome in Hrs. by injection Hrs as <-.
Qed.

Lemma report_content_witness :
  ∃ out data,
    read_data "best_times.csv" sample_best_times = IO out (Ok data)
    ∧ ∃ report, gen_unformatted_report data = Ok report
        ∧ report.*1 = _AgeGroups
        ∧ ∀ ag events, (ag, events) ∈ report →
            events.*1 `sublist_of` _AllEvents
            ∧ NoDup events.*1
            ∧ ∀ ev swimmers, (ev, swimmers) ∈ events →
                swimmers
                = gen_unformatted_swimmers
                    (results_for (drop 1 sample_best_times) ag ev).
Proof.
  eexists _, _. split; [reflexivity|].
  eapply (report_content "best_times.csv" sample_best_times). reflexivity.
Defined.

End OutlineContent.


(** ** Event blocks in the column flow *)

Section EventBlocks.

Import gen_best_times.

Variable get_string_width : font → string → Q.

Abbreviation place_swimmer := (place_swimmer get_string_width).
Abbreviation event_break := (event_break get_string_width).
Abbreviation place_event := (place_event get_string_width).

(** A cell lies in the column of the cursor [st]: between the left edge
    [x st] of the column and [x st + w_col]. *)
Definition in_column_of (st : cursor) (d : FPDF.drawn) : Prop :=
  (x st <= FPDF.at_x d)%Q ∧ (FPDF.at_x d + FPDF.width d <= x st + w_col)%Q.

(** Two cursors are in the same column. *)
Definition same_column (st st' : cursor) : Prop :=
  c st' = c st ∧ x st' = x st.

(** From [st] to [st'] the cursor stays in its column, no page is taken
    back, and the cells drawn in between are [new]: they lie in the column,
    on the pages from the one of [st] to the one of [st']. *)
Definition drawn_in_column (st st' : cursor) (new : list FPDF.drawn) : Prop :=
  same_column st st'
  ∧ FPDF.page (pdf st) ≤ FPDF.page (pdf st')
  ∧ FPDF.cells (pdf st') = FPDF.cells (pdf st) ++ new
  ∧ Forall (λ d, in_column_of st d
                 ∧ FPDF.page (pdf st) ≤ FPDF.on_page d ≤ FPDF.page (pdf st'))
      new.


Lemma w_col_eq : w_col = 65%Q.
Proof. reflexivity. Qed.

(** What [cell] does: one cell more, at the horizontal position of the
    document, on the page the document is on afterwards; no new page when
    the cell ends at or above the trigger. *)
Lemma cell_spec w h txt doc :
  ∃ d, FPDF.cells (FPDF.cell w h txt doc) = FPDF.cells doc ++ [d]
    ∧ FPDF.at_x d = FPDF.cur_x doc ∧ FPDF.width d = w ∧ FPDF.height d = h
    ∧ FPDF.text d = txt
    ∧ FPDF.on_page d = FPDF.page (FPDF.cell w h txt doc)
    ∧ FPDF.page doc ≤ FPDF.page (FPDF.cell w h txt doc)
    ∧ ((FPDF.cur_y doc + h <= FPDF.page_break_trigger)%Q →
       FPDF.page (FPDF.cell w h txt doc) = FPDF.page doc
       ∧ FPDF.at_y d = FPDF.cur_y doc
       ∧ FPDF.cur_y (FPDF.cell w h txt doc) = FPDF.cur_y doc).
Proof.
  unfold FPDF.cell. destruct (Qlt_le_dec _ _) as [Hlt|Hle].
  - eexists. split; [reflexivity|]. cbn. repeat split; try done; try lia.
    all: by apply Qlt_not_le in Hlt.
  - eexists. split; [reflexivity|]. cbn. repeat split; done.
Qed.

Lemma drawn_in_column_refl st : drawn_in_column st st [].
Proof. split; [done|]. split; [done|]. split; [by rewrite app_nil_r|done]. Qed.

Lemma drawn_in_column_trans st st' st'' new new' :
  drawn_in_column st st' new → drawn_in_column st' st'' new' →
  drawn_in_column st st'' (new ++ new').
Proof.
  intros ([Hc Hx] & Hp & Hcells & Hnew) ([Hc' Hx'] & Hp' & Hcells' & Hnew').
  split; [split; congruence|]. split; [lia|].
  split; [by rewrite Hcells', Hcells, <- app_assoc|].
  apply Forall_app. split.
  - eapply Forall_impl; [exact Hnew|]. cbn. intros d (? & ? & ?).
    split; [done|lia].
  - eapply Forall_impl; [exact Hnew'|]. cbn. intros d ([? ?] & ? & ?).
    split; [|lia]. unfold in_column_of. by rewrite <- Hx.
Qed.

(** A header: one cell from [indent] to the right edge of the column. *)
Lemma header_cell_column (f : font) (indent h : Q) (txt : string) st :
  (0 <= indent)%Q →
  let doc' :=
    FPDF.cell (w_col - indent) h txt
      (FPDF.set_xy (x st + indent) (y st) (FPDF.set_font f (pdf st))) in
  ∃ d, drawn_in_column st (Cursor doc' (c st) (x st) (y st + h)) [d]
    ∧ FPDF.text d = txt ∧ FPDF.height d = h
    ∧ ((y st + h <= FPDF.page_break_trigger)%Q →
       FPDF.page doc' = FPDF.page (pdf st) ∧ FPDF.at_y d = y st).
Proof.
  intros Hindent doc'.
  destruct (cell_spec (w_col - indent) h txt
              (FPDF.set_xy (x st + indent) (y st) (FPDF.set_font f (pdf st))))
    as (d & Hcells & Hx & Hw & Hh & Ht & Hp & Hle & Hfit).
  fold doc' in Hcells, Hp, Hle, Hfit.
  exists d. split; [|split; [done|split; [done|]]].
  - split; [done|]. split; [exact Hle|]. split; [exact Hcells|].
    apply Forall_singleton. cbn [pdf]. split; [|rewrite Hp; split; [exact Hle|done]].
    unfold in_column_of. rewrite Hx, Hw. cbn [FPDF.cur_x FPDF.set_xy].
    split; lra.
  - intros Hy. destruct (Hfit Hy) as (? & ? & _). done.
Qed.

Lemma place_event_header_column event st :
  ∃ d, drawn_in_column st (place_event_header event st) [d]
    ∧ FPDF.text d = event ∧ FPDF.height d = _EventHeight
    ∧ ((y st + _EventHeight <= FPDF.page_break_trigger)%Q →
       FPDF.page (pdf (place_event_header event st)) = FPDF.page (pdf st)
       ∧ FPDF.at_y d = y st).
Proof. by apply (header_cell_column _EventFont _EventIndent _EventHeight). Qed.

(** A row: the name and the time, in the column. When the row ends at or
    above the trigger it is drawn at the height of the cursor, on its
    page. *)
Lemma place_swimmer_column st e :
  ∃ d1 d2, drawn_in_column st (place_swimmer st e) [d1; d2]
    ∧ y (place_swimmer st e) = (y st + _SwimmerHeight)%Q
    ∧ FPDF.height d1 = _SwimmerHeight ∧ FPDF.height d2 = _SwimmerHeight
    ∧ ((y st + _SwimmerHeight <= FPDF.page_break_trigger)%Q →
       FPDF.page (pdf (place_swimmer st e)) = FPDF.page (pdf st)
       ∧ FPDF.at_y d1 = y st ∧ FPDF.at_y d2 = y st).
Proof.
  destruct e as [[name time] date]. unfold gen_best_times.place_swimmer.
  set (w_name := (w_col - _)%Q).
  set (doc0 := FPDF.set_xy _ _ _).
  assert (FPDF.cells doc0 = FPDF.cells (pdf st)
          ∧ FPDF.page doc0 = FPDF.page (pdf st)
          ∧ FPDF.cur_x doc0 = (x st + _SwimmerIndent)%Q
          ∧ FPDF.cur_y doc0 = y st) as (Hc0 & Hp0 & Hx0 & Hy0).
  { subst doc0. by destruct (Qlt_le_dec _ _). }
  destruct (cell_spec w_name _SwimmerHeight name doc0)
    as (d1 & Hc1 & Hx1 & Hw1 & Hh1 & _ & Hp1 & Hle1 & Hfit1).
  set (doc1 := FPDF.cell w_name _SwimmerHeight name doc0) in *.
  set (doc2 := FPDF.set_x _ (FPDF.set_font _ doc1)).
  destruct (cell_spec _TimeWidth _SwimmerHeight (format_time time) doc2)
    as (d2 & Hc2 & Hx2 & Hw2 & Hh2 & _ & Hp2 & Hle2 & Hfit2).
  set (doc3 := FPDF.cell _TimeWidth _SwimmerHeight (format_time time) doc2) in *.
  change (FPDF.cells doc2) with (FPDF.cells doc1) in Hc2.
  change (FPDF.page doc2) with (FPDF.page doc1) in Hle2, Hfit2.
  change (FPDF.cur_x doc2) with (x st + w_col - _TimeWidth - _ColumnPad)%Q in Hx2.
  change (FPDF.cur_y doc2) with (FPDF.cur_y doc1) in Hfit2.
  rewrite Hp0 in Hle1, Hfit1. rewrite Hy0 in Hfit1.
  exists d1, d2. split; [|split; [done|split; [done|split; [done|]]]].
  - split; [done|]. cbn [pdf]. split; [lia|].
    split; [by rewrite Hc2, Hc1, Hc0, <- app_assoc|].
    apply Forall_cons_2; [|apply Forall_singleton].
    + split; [|lia]. unfold in_column_of. rewrite Hx1, Hw1, Hx0. subst w_name.
      rewrite w_col_eq.
      unfold _SwimmerIndent, _EventIndent, _AgeGroupIndent, _ColumnPad,
        _TimeWidth, _CellPad.
      split; lra.
    + split; [|lia]. unfold in_column_of. rewrite Hx2, Hw2. rewrite w_col_eq.
      unfold _ColumnPad, _TimeWidth. split; lra.
  - intros Hy. cbn [pdf]. destruct (Hfit1 Hy) as (Hq1 & Hy1 & Hcur).
    rewrite Hcur in Hfit2. destruct (Hfit2 Hy) as (Hq2 & Hy2 & _).
    split; [congruence|]. split; congruence.
Qed.

Lemma place_swimmers_column swimmers st :
  ∃ rows, drawn_in_column st (foldl place_swimmer st swimmers) rows
    ∧ length rows = 2 * length swimmers.
Proof.
  revert st. induction swimmers as [|e swimmers IH]; intros st.
  { exists []. split; [apply drawn_in_column_refl|done]. }
  cbn [foldl].
  destruct (place_swimmer_column st e) as (d1 & d2 & Hrow & _).
  destruct (IH (place_swimmer st e)) as (rows & Hrows & Hlen).
  exists ([d1; d2] ++ rows). split; [by eapply drawn_in_column_trans|].
  cbn [length app]. lia.
Qed.

Lemma emit_event_column event swimmers st :
  ∃ block, drawn_in_column st (emit_event get_string_width event swimmers st) block
    ∧ length block = 1 + 2 * length swimmers.
Proof.
  destruct (place_event_header_column event st) as (d & Hd & _).
  destruct (place_swimmers_column swimmers (place_event_header event st))
    as (rows & Hrows & Hlen).
  exists ([d] ++ rows). split; [|cbn [length app]; lia].
  exact (drawn_in_column_trans _ _ _ _ _ Hd Hrows).
Qed.


End EventBlocks.

(** ** The whole report on the page *)

Section ReportOnPage.

Import gen_best_times.

Variable get_string_width : font → string → Q.
Hypothesis get_string_width_nonneg : ∀ f s, (0 <= get_string_width f s)%Q.

Abbreviation add_page := (add_page get_string_width).
Abbreviation place_swimmer := (place_swimmer get_string_width).
Abbreviation event_break := (event_break get_string_width).
Abbreviation age_group_break := (age_group_break get_string_width).
Abbreviation place_event := (place_event get_string_width).
Abbreviation place_age_group := (place_age_group get_string_width).
Abbreviation place_age_groups := (place_age_groups get_string_width).

(** A cell lies between the left and the right edge of the page. *)
Definition within_page (d : FPDF.drawn) : Prop :=
  (_LeftEdge <= FPDF.at_x d)%Q ∧ (FPDF.at_x d + FPDF.width d <= _RightEdge)%Q.

(** The cursor is at the left edge of one of the three columns. *)
Definition in_flow (st : cursor) : Prop :=
  c st ≤ 2 ∧ (x st == _LeftEdge + inject_Z (Z.of_nat (c st)) * w_col)%Q.

(** The cells drawn so far are on the pages of the document, between the
    edges. *)
Definition on_pages (doc : FPDF.t) : Prop :=
  1 ≤ FPDF.page doc
  ∧ Forall (λ d, within_page d ∧ 1 ≤ FPDF.on_page d ≤ FPDF.page doc)
      (FPDF.cells doc).

Lemma in_column_within st d :
  in_flow st → in_column_of st d → within_page d.
Proof.
  intros [Hc Hx] (Hl & Hr). unfold within_page.
  rewrite w_col_eq in *. unfold _LeftEdge, _RightEdge in *.
  assert (c st = 0 ∨ c st = 1 ∨ c st = 2) as [Hc0|[Hc0|Hc0]] by lia;
    rewrite Hc0 in Hx;
    [change (inject_Z (Z.of_nat 0)) with 0%Q in Hx
    |change (inject_Z (Z.of_nat 1)) with 1%Q in Hx
    |change (inject_Z (Z.of_nat 2)) with 2%Q in Hx];
    split; lra.
Qed.

Lemma on_pages_app doc doc' new :
  on_pages doc →
  FPDF.page doc ≤ FPDF.page doc' →
  FPDF.cells doc' = FPDF.cells doc ++ new →
  Forall (λ d, within_page d ∧ 1 ≤ FPDF.on_page d ≤ FPDF.page doc') new →
  on_pages doc'.
Proof.
  intros [Hp Hcells] Hle Heq Hnew. split; [lia|]. rewrite Heq.
  apply Forall_app. split; [|done].
  eapply Forall_impl; [exact Hcells|]. cbn. intros d (? & ? & ?).
  split; [done|lia].
Qed.

(** A new page of the report: the page after, with the age group and
    "(cont)" at its top when the age group is given. *)
Lemma add_page_spec doc age_group :
  ∃ new,
    FPDF.page (add_page doc w_col age_group) = S (FPDF.page doc)
    ∧ FPDF.cells (add_page doc w_col age_group) = FPDF.cells doc ++ new
    ∧ Forall (λ d, within_page d ∧ FPDF.on_page d = S (FPDF.page doc)) new.
Proof.
  unfold gen_best_times.add_page.
  change (seq 1 (_ColumnCount - 1)) with [1; 2]. cbn [foldl].
  destruct age_group as [ag|]; [destruct (truthy ag)|].
  2,3: exists []; by rewrite app_nil_r.
  set (doc0 := FPDF.set_xy _ _ _).
  assert (Htop : (_TopEdge + _AgeGroupHeight <= FPDF.page_break_trigger)%Q).
  { unfold _TopEdge, _AgeGroupHeight, FPDF.page_break_trigger. lra. }
  destruct (cell_spec (w_col - _AgeGroupIndent) _AgeGroupHeight ag doc0)
    as (d1 & Hc1 & Hx1 & Hw1 & _ & _ & Hp1 & _ & Hfit1).
  destruct (Hfit1 Htop) as (Hq1 & _ & Hy1).
  set (doc1 := FPDF.cell (w_col - _AgeGroupIndent) _AgeGroupHeight ag doc0) in *.
  set (dx := (get_string_width (FPDF.cur_font doc1) ag + _ContPad)%Q).
  set (doc2 := FPDF.set_font _ (FPDF.set_x _ doc1)).
  destruct (cell_spec (w_col - _AgeGroupIndent - dx) _AgeGroupHeight "(cont)" doc2)
    as (d2 & Hc2 & Hx2 & Hw2 & _ & _ & Hp2 & _ & Hfit2).
  change (FPDF.cur_y doc2) with (FPDF.cur_y doc1) in Hfit2. rewrite Hy1 in Hfit2.
  destruct (Hfit2 Htop) as (Hq2 & _ & _).
  change (FPDF.page doc2) with (FPDF.page doc1) in Hq2.
  change (FPDF.cells doc2) with (FPDF.cells doc1) in Hc2.
  change (FPDF.cur_x doc2) with (_LeftEdge + _AgeGroupIndent + dx)%Q in Hx2.
  change (FPDF.cur_x doc0) with (_LeftEdge + _AgeGroupIndent)%Q in Hx1.
  change (FPDF.page doc0) with (S (FPDF.page doc)) in Hq1.
  change (FPDF.cells doc0) with (FPDF.cells doc) in Hc1.
  exists [d1; d2]. split; [congruence|]. split.
  { by rewrite Hc2, Hc1, <- app_assoc. }
  pose proof (get_string_width_nonneg (FPDF.cur_font doc1) ag) as Hw.
  fold dx in Hw. assert (Hdx : (_ContPad <= dx)%Q) by (subst dx; lra).
  clearbody dx.
  apply Forall_cons_2; [|apply Forall_singleton].
  - split; [|congruence]. unfold within_page. rewrite Hx1, Hw1, w_col_eq.
    unfold _LeftEdge, _RightEdge, _AgeGroupIndent, _ColumnPad. split; lra.
  - split; [|congruence]. unfold within_page. rewrite Hx2, Hw2, w_col_eq.
    unfold _LeftEdge, _RightEdge, _AgeGroupIndent, _ColumnPad, _ContPad in *.
    split; lra.
Qed.

Definition flowing (st : cursor) : Prop := in_flow st ∧ on_pages (pdf st).

Lemma next_column st :
  in_flow st → ¬ 2 < c st + 1 →
  in_flow (Cursor (pdf st) (c st + 1) (x st + w_col) _TopEdge).
Proof.
  intros [Hc Hx] Hnext. split; cbn [c x]; [lia|].
  rewrite w_col_eq in *. unfold _LeftEdge in *.
  assert (c st = 0 ∨ c st = 1) as [Hc0|Hc0] by lia; rewrite Hc0 in *;
    [change (inject_Z (Z.of_nat 0)) with 0%Q in Hx;
     change (inject_Z (Z.of_nat (0 + 1))) with 1%Q
    |change (inject_Z (Z.of_nat 1)) with 1%Q in Hx;
     change (inject_Z (Z.of_nat (1 + 1))) with 2%Q];
    lra.
Qed.

Lemma first_column doc y0 : in_flow (Cursor doc 0 _LeftEdge y0).
Proof.
  split; cbn [c x]; [lia|]. change (inject_Z (Z.of_nat 0)) with 0%Q. lra.
Qed.

Lemma add_page_on_pages doc age_group :
  on_pages doc → on_pages (add_page doc w_col age_group).
Proof.
  intros Hdoc. destruct (add_page_spec doc age_group) as (new & Hp & Hcells & Hnew).
  eapply on_pages_app; [done|lia|done|].
  eapply Forall_impl; [exact Hnew|]. cbn. intros d [? ->]. split; [done|lia].
Qed.

Lemma first_page_on_pages : on_pages (add_page FPDF.new w_col None).
Proof.
  destruct (add_page_spec FPDF.new None) as (new & Hp & Hcells & Hnew).
  split; [rewrite Hp; lia|]. rewrite Hcells, Hp. cbn [FPDF.new FPDF.cells app].
  eapply Forall_impl; [exact Hnew|]. cbn. intros d [? ->]. split; [done|lia].
Qed.

Lemma event_break_flowing ag n st : flowing st → flowing (event_break ag n st).
Proof.
  intros [Hflow Hdoc]. unfold gen_best_times.event_break.
  destruct (Qlt_le_dec _ _); [|done].
  destruct (decide (2 < c st + 1)) as [Hnew|Hnext].
  - split; [apply first_column|]. by apply add_page_on_pages.
  - split; [by apply next_column|done].
Qed.

Lemma age_group_break_flowing n st :
  flowing st → flowing (age_group_break n st).
Proof.
  intros [Hflow Hdoc]. unfold gen_best_times.age_group_break.
  destruct (Qlt_le_dec _ _); [|done].
  destruct (decide (2 < c st + 1)) as [Hnew|Hnext].
  - split; [apply first_column|]. by apply add_page_on_pages.
  - split; [by apply next_column|done].
Qed.

(** Cells drawn in the column of a cursor in the flow are on the pages. *)
Lemma drawn_in_column_flowing st st' new :
  flowing st → drawn_in_column st st' new → flowing st'.
Proof.
  intros [Hflow Hdoc] ([Hc Hx] & Hp & Hcells & Hnew). split.
  - destruct Hflow as [? ?]. unfold in_flow. by rewrite Hc, Hx.
  - eapply on_pages_app; [done|done|done|].
    eapply Forall_impl; [exact Hnew|]. cbn. intros d (Hd & ? & ?).
    split; [by eapply in_column_within|]. destruct Hdoc as [? _]. lia.
Qed.

Lemma place_event_flowing ag st block :
  flowing st → flowing (place_event ag st block).
Proof.
  intros Hst. destruct block as [event swimmers].
  unfold gen_best_times.place_event.
  pose proof (event_break_flowing ag (length swimmers) st Hst) as Hst0.
  destruct (emit_event_column get_string_width event swimmers
              (event_break ag (length swimmers) st)) as (block & Hblock & _).
  by eapply drawn_in_column_flowing.
Qed.

Lemma place_events_flowing ag events st :
  flowing st → flowing (foldl (place_event ag) st events).
Proof.
  revert st. induction events as [|block events IH]; intros st Hst; [done|].
  cbn [foldl]. by apply IH, place_event_flowing.
Qed.

Lemma place_age_group_flowing st ag events :
  flowing st → events ≠ [] →
  ∃ st', place_age_group st (ag, events) = Ok st' ∧ flowing st'.
Proof.
  intros Hst Hevents. unfold gen_best_times.place_age_group, index.
  destruct events as [|first events]; [done|]. cbn [lookup list_lookup bind].
  eexists. split; [done|].
  pose proof (age_group_break_flowing (length first.2) st Hst) as Hst0.
  set (st0 := age_group_break (length first.2) st) in *.
  set (st1 := Cursor _ (c st0) (x st0) (y st0 + _AgeGroupHeight)).
  assert (flowing st1) as Hst1.
  { destruct (header_cell_column _AgeGroupFont _AgeGroupIndent _AgeGroupHeight
                ag st0) as (d & Hd & _); [done|].
    by eapply drawn_in_column_flowing. }
  pose proof (place_events_flowing ag (first :: events) st1 Hst1) as [Hflow Hdoc].
  split; [apply Hflow|apply Hdoc].
Qed.

Lemma place_age_groups_flowing st (data : outline) :
  flowing st → Forall (λ group, group.2 ≠ []) data →
  ∃ st', place_age_groups st data = Ok st' ∧ flowing st'.
Proof.
  intros Hst Hdata. revert st Hst.
  induction Hdata as [|[ag events] data Hevents _ IH]; intros st Hst.
  { by exists st. }
  cbn [gen_best_times.place_age_groups].
  destruct (place_age_group_flowing st ag events Hst Hevents) as (st1 & -> & Hst1).
  cbn [bind]. by apply IH.
Qed.

Lemma place_age_groups_empty st (data : outline) :
  Exists (λ group, group.2 = []) data →
  place_age_groups st data = Raise IndexError.
Proof.
  intros Hdata. revert st.
  induction data as [|[ag events] data IH]; intros st;
    [by apply Exists_nil in Hdata|].
  cbn [gen_best_times.place_age_groups].
  destruct events as [|first events].
  - done.
  - apply Exists_cons in Hdata as [[=]|Hdata].
    destruct (place_age_group st (ag, first :: events)) as [st1|e] eqn:Hst1.
    + cbn [bind]. by apply IH.
    + by unfold gen_best_times.place_age_group in Hst1.
Qed.

(** X6. [gen_formatted_report] writes a document exactly when every age
    group of the outline has at least one event (it reads the first event of
    each group and ends with an uncaught [IndexError] otherwise). In the
    document every cell lies between the left and the right edge of the
    page, on a page from 1 to the number of pages. *)
Theorem gen_formatted_report_on_pages (data : outline) :
  (Forall (λ group, group.2 ≠ []) data →
     ∃ doc, gen_formatted_report get_string_width data = Ok doc ∧ on_pages doc)
  ∧ (Exists (λ group, group.2 = []) data →
       gen_formatted_report get_string_width data = Raise IndexError).
Proof.
  unfold gen_formatted_report. split.
  - intros Hdata.
    destruct (place_age_groups_flowing
                (Cursor (add_page FPDF.new w_col None) 0 _LeftEdge _TopEdge) data)
      as (st' & -> & _ & Hdoc); [|done|by eexists].
    split; [apply first_column|apply first_page_on_pages].
  - intros Hdata. by rewrite place_age_groups_empty.
Qed.

(** Every age group of the outline of a parsed file has an event. *)
Lemma medley_registered ag :
  ag ∈ _AgeGroups →
  "100 Individual Medley" ∈ registered ag ∧ "100 Individual Medley" ∈ _AllEvents.
Proof.
  intros Hag. split; [|vm_compute; repeat constructor].
  repeat (apply elem_of_cons in Hag as [->|Hag]; [vm_compute; repeat constructor|]).
  by apply elem_of_nil in Hag.
Qed.

Lemma outline_groups_nonempty out data lines report :
  parsed out data lines → gen_unformatted_report data = Ok report →
  Forall (λ group, group.2 ≠ []) report.
Proof.
  intros Hinv Hreport.
  rewrite (gen_unformatted_report_parsed _ _ _ Hinv) in Hreport.
  assert (report = (λ ag, (ag, gen_unformatted_events (default ∅ (data !! ag))))
                     <$> _AgeGroups) as -> by congruence.
  rewrite Forall_fmap, Forall_forall. intros ag Hag. unfold compose. cbn [snd].
  destruct (parsed_known _ _ _ Hinv ag Hag) as (events & -> & Hevents).
  change (default ∅ (Some events)) with events.
  destruct (medley_registered ag Hag) as [Hreg Hall].
  assert (("100 Individual Medley",
           gen_unformatted_swimmers (results_for lines ag "100 Individual Medley"))
          ∈ gen_unformatted_events events) as Hin.
  { apply elem_of_gen_unformatted_events. split; [done|]. eexists. split; [|done].
    by destruct (Hevents "100 Individual Medley") as [(_ & ? & _)|(? & _)]. }
  intros Hnil. rewrite Hnil in Hin. by apply elem_of_nil in Hin.
Qed.

(** X7. Whenever [read_data] accepts the best-times file, [main] goes on to
    write a document: the outline has an event under every age group, so
    the layout never stops on an empty group; what was printed is what
    [read_data] printed, and every cell of the document is between the
    edges of the page. *)
Theorem main_writes_document src rows out data :
  read_data src rows = IO out (Ok data) →
  ∃ doc, main get_string_width src rows = IO out (Ok doc) ∧ on_pages doc.
Proof.
  intros Hread. unfold gen_best_times.main. rewrite Hread.
  destruct (read_data_parsed _ _ _ _ Hread) as (lines & -> & Hinv).
  pose proof (outline_groups_nonempty _ _ _ _ Hinv
                (gen_unformatted_report_parsed _ _ _ Hinv)) as Hne.
  edestruct (place_age_groups_flowing
               (Cursor (add_page FPDF.new w_col None) 0 _LeftEdge _TopEdge))
    as (st' & Hst' & _ & Hdoc); [|exact Hne|].
  { split; [apply first_column|apply first_page_on_pages]. }
  exists (pdf st'). split; [|done].
  unfold io_bind at 1. cbv beta iota.
  rewrite (gen_unformatted_report_parsed _ _ _ Hinv).
  unfold lift, io_bind, gen_formatted_report. rewrite Hst'. cbn [bind].
  by rewrite !app_nil_r.
Qed.

End ReportOnPage.

Section ReportOnPageSample.

Import gen_best_times.

(** A width in proportion to the number of characters, for the examples. *)
Definition sample_width (f : font) (s : string) : Q :=
  inject_Z (Z.of_nat (String.length s)) * 2.

Lemma sample_width_nonneg f s : (0 <= sample_width f s)%Q.
Proof.
  unfold sample_width.
  apply Qmult_le_0_compat; [|done].
  change 0%Q with (inject_Z 0). rewrite <- Zle_Qle. lia.
Qed.

Lemma gen_formatted_report_on_pages_witness :
  (∃ doc,
     gen_formatted_report sample_width
       [("Girls 9-10", [("50 Freestyle", [("Ann Doe (9)", 35.40%Q, "06/01")])])]
     = Ok doc ∧ on_pages doc)
  ∧ gen_formatted_report sample_width [("Girls 9-10", [])] = Raise IndexError.
Proof.
  split.
  - apply (gen_formatted_report_on_pages sample_width sample_width_nonneg).
    by repeat constructor.
  - apply (gen_formatted_report_on_pages sample_width sample_width_nonneg).
    by left.
Defined.

Lemma main_writes_document_witness :
  ∃ out data,
    read_data "best_times.csv" sample_best_times = IO out (Ok data)
    ∧ ∃ doc, main sample_width "best_times.csv" sample_best_times = IO out (Ok doc)
        ∧ on_pages doc.
Proof.
  eexists _, _. split; [reflexivity|].
  eapply (main_writes_document sample_width sample_width_nonneg
            "best_times.csv" sample_best_times).
  reflexivity.
Defined.

End ReportOnPageSample.

(** ** A block taller than a column *)

Section TallBlock.

Import gen_best_times.

(** A best-times file with 70 swimmers in one event of one age group. *)
Definition tall_block_rows : list (list string) :=
  ExpectedColumns
  :: replicate 70
       ["Girls 9-10"; "Ann"; "Doe"; "9"; "50 Freestyle"; "35.40"; "35.40";
        "3540"; "06/01/2024"; "Opening Meet"].

(** The cells of the block of 70 rows in the document: the 13 cells before
    it are the headers of the two age groups above, with their five events
    each, and the header of the age group of the block. *)
Definition tall_block (doc : FPDF.t) : list FPDF.drawn :=
  take 141 (drop 13 (FPDF.cells doc)).

(** The cell starts at or after [left] and ends at or before [right]. *)
Definition between (left right : Q) (d : FPDF.drawn) : bool :=
  Qle_bool left (FPDF.at_x d) && Qle_bool (FPDF.at_x d + FPDF.width d) right.

(** C2. [gen_best_times.py] leaves the automatic page break of the library
    on, where [gen_formatted_labels] of [gen_black_ribbons.py] switches it
    off. For a file with 70 swimmers in one event, the block is moved to
    the top of the third column of page 1 and its cells all lie in that
    column, from 140 to 205; but only the header and the first 64 rows are
    on page 1: each of the last six rows ends below the trigger and starts
    a page of its own, pages 2 to 7. *)
Theorem event_block_split_over_pages :
  ∃ doc,
    main sample_width "best_times.csv" tall_block_rows = IO [] (Ok doc)
    ∧ FPDF.page doc = 8
    ∧ FPDF.text <$> tall_block doc
      = "50 Freestyle" :: concat (replicate 70 ["Ann Doe (9)"; "35.40"])
    ∧ forallb (between 140 205) (tall_block doc) = true
    ∧ FPDF.on_page <$> tall_block doc
      = replicate 129 1 ++ [2; 2; 3; 3; 4; 4; 5; 5; 6; 6; 7; 7].
Proof.
  exists (match main sample_width "best_times.csv" tall_block_rows with
          | IO _ (Ok doc) => doc
          | _ => FPDF.new
          end).
  split; [vm_compute; reflexivity|]. split; [vm_compute; reflexivity|].
  split; [vm_compute; reflexivity|]. split; vm_compute; reflexivity.
Qed.

End TallBlock.

(** ** Blocks that fit in a column *)

Section FittingBlocks.

Import gen_best_times.

Variable get_string_width : font → string → Q.

Abbreviation place_swimmer := (place_swimmer get_string_width).
Abbreviation event_break := (event_break get_string_width).
Abbreviation place_event := (place_event get_string_width).







End FittingBlocks.



(** ** Times as they are printed *)

Section PrintedTimes.

Import gen_best_times.






End PrintedTimes.
